(** * Genesis construction of the AVM static service

    A shallow embedding of [BuildGenesis]
    (vms/avm/static/static_service.go) and the properties of its
    deterministic-construction pipeline: address resolution, typed
    initial-state records, canonical ordering and the error paths. *)

From Stdlib Require Import ZArith List String Ascii Strings.Byte Bool Lia.
From Stdlib Require Import Sorting.Sorted Sorting.Permutation.
From stdpp Require Import base list sorting.
Import ListNotations.

Set Warnings "-register-all".

Local Open Scope Z_scope.
Local Open Scope string_scope.
Local Open Scope list_scope.

(** ** Go values *)

Definition bytes := list byte.

(** Fixed-width conversions, written out as wrap-around on [Z]. *)
Definition to_byte (x : Z) : Z := x mod 256.
Definition uint32 (x : Z) : Z := x mod 2 ^ 32.
Definition uint64 (x : Z) : Z := x mod 2 ^ 64.

(** Go's [error]: [errors.New], [fmt.Errorf] with a wrapping verb (w)
    and [fmt.Errorf] with a formatting verb (s). *)
Inductive error : Type :=
| New (msg : string)
| Wrap (msg : string) (inner : error)
| Fmt (msg : string) (inner : error).

(** A call that returns [(value, error)] and whose value is only read
    when the error is nil. *)
Inductive result (A : Type) : Type :=
| Ok (a : A)
| Err (e : error).
Arguments Ok {A} a.
Arguments Err {A} e.

Definition bind {A B} (r : result A) (k : A -> result B) : result B :=
  match r with
  | Ok a => k a
  | Err e => Err e
  end.

(** [v, err := call; if err != nil { return fmt.Errorf(msg, err) }] *)
Definition wrap {A} (msg : string) (r : result A) : result A :=
  match r with
  | Ok a => Ok a
  | Err e => Err (Wrap msg e)
  end.

Declare Scope result_scope.
Delimit Scope result_scope with result.
Notation "x <- e ;; k" := (bind e (fun x => k))
  (at level 100, e at next level, right associativity) : result_scope.
Local Open Scope result_scope.

(** [for _, x := range l { ... }] with a body that either updates the
    loop state or returns an error, which ends the whole function. *)
Fixpoint forRange {S A} (body : S -> A -> result S) (s : S) (l : list A)
  : result S :=
  match l with
  | [] => Ok s
  | x :: l' =>
      match body s x with
      | Ok s' => forRange body s' l'
      | Err e => Err e
      end
  end.

(** The list of results of [f] on every element, or the first error. *)
Fixpoint mapM {A B} (f : A -> result B) (l : list A) : result (list B) :=
  match l with
  | [] => Ok []
  | x :: l' =>
      match f x with
      | Ok y =>
          match mapM f l' with
          | Ok ys => Ok (y :: ys)
          | Err e => Err e
          end
      | Err e => Err e
      end
  end.

(** ** Byte strings and their order ([bytes.Compare]) *)

Fixpoint bytes_compare (a b : bytes) : comparison :=
  match a, b with
  | [], [] => Eq
  | [], _ :: _ => Lt
  | _ :: _, [] => Gt
  | x :: a', y :: b' =>
      match N.compare (Byte.to_N x) (Byte.to_N y) with
      | Eq => bytes_compare a' b'
      | c => c
      end
  end.

Definition bytes_leb (a b : bytes) : bool :=
  match bytes_compare a b with
  | Gt => false
  | _ => true
  end.

(** ** Stable sorting by a byte-string key *)

Section SortBy.
Context {A : Type} (key : A -> bytes).

Definition key_leb (x y : A) : bool := bytes_leb (key x) (key y).
Definition key_le (x y : A) : Prop := key_leb x y = true.

(** [x] goes in front of the first element that is not smaller, so
    that elements with equal keys keep their declaration order. *)
Fixpoint insert_by (x : A) (l : list A) : list A :=
  match l with
  | [] => [x]
  | y :: l' => if key_leb x y then x :: y :: l' else y :: insert_by x l'
  end.

Fixpoint sort_by (l : list A) : list A :=
  match l with
  | [] => []
  | x :: l' => insert_by x (sort_by l')
  end.
End SortBy.

(** ** Data model *)

(** A loosely-typed record as [encoding/json] hands it over in an
    [interface{}]; numbers are kept as integers. *)
Inductive JSON : Type :=
| JNull
| JBool (b : bool)
| JNumber (n : Z)
| JString (s : string)
| JArray (items : list JSON)
| JObject (fields : list (string * JSON)).

Module formatting.
(** Modelled from the spec: the type [formatting.Encoding] is not part
    of the file; the request names its text encoding as
    "enum{hex, base-checksum, ...}". *)
Inductive Encoding : Type := CB58 | Hex.
End formatting.

Module ids.
Definition ID := bytes.
Definition ShortID := bytes.

(** Modelled from the spec: [ids.ToShortID] is not part of the file;
    the Address Resolver yields "a fixed-width (20-byte) binary
    identifier" and fails when the text "decodes to a length other
    than 20 bytes". *)
Definition ToShortID (b : bytes) : result ShortID :=
  if (length b =? 20)%nat then Ok b else Err (New "invalid hash length").
End ids.

Module secp256k1fx.
Record OutputOwners := {
  Threshold : Z;
  Addrs : list ids.ShortID
}.
Record TransferOutput := {
  Amt : Z;
  TransferOwners : OutputOwners
}.
Record MintOutput := {
  MintOwners : OutputOwners
}.

(** Modelled from the spec: [OutputOwners.Sort] is not part of the
    file; it is to "sort that owner list ascending by binary value",
    with a sort that is "stable and total". *)
Definition Sort (o : OutputOwners) : OutputOwners :=
  {| Threshold := Threshold o; Addrs := sort_by (fun a => a) (Addrs o) |}.
End secp256k1fx.

Module avax.
Record BaseTx := {
  NetworkID : Z;
  BlockchainID : ids.ID;
  Memo : bytes
}.
End avax.

Module internalavm.
(** The values stored in [InitialState.Outs]: an interface that the
    two output kinds of the file implement. *)
Inductive Output : Type :=
| Transfer (out : secp256k1fx.TransferOutput)
| Mint (out : secp256k1fx.MintOutput).

Record InitialState := {
  FxID : Z;
  Outs : list Output
}.
Record BaseTx := {
  AvaxBaseTx : avax.BaseTx
}.
Record CreateAssetTx := {
  EmbeddedBaseTx : BaseTx;
  Name : string;
  Symbol : string;
  Denomination : Z;
  States : list InitialState
}.
Record GenesisAsset := {
  Alias : string;
  EmbeddedCreateAssetTx : CreateAssetTx
}.
Record Genesis := {
  Txs : list GenesisAsset
}.

Definition owners (o : Output) : secp256k1fx.OutputOwners :=
  match o with
  | Transfer t => secp256k1fx.TransferOwners t
  | Mint m => secp256k1fx.MintOwners m
  end.
Definition assetStates (a : GenesisAsset) : list InitialState :=
  States (EmbeddedCreateAssetTx a).
Definition assetMemo (a : GenesisAsset) : bytes :=
  avax.Memo (AvaxBaseTx (EmbeddedBaseTx (EmbeddedCreateAssetTx a))).
Definition assetDenomination (a : GenesisAsset) : Z :=
  Denomination (EmbeddedCreateAssetTx a).

(** [asset.States = append(asset.States, st)] *)
Definition appendState (a : GenesisAsset) (st : InitialState) : GenesisAsset :=
  let tx := EmbeddedCreateAssetTx a in
  {| Alias := Alias a;
     EmbeddedCreateAssetTx :=
       {| EmbeddedBaseTx := EmbeddedBaseTx tx;
          Name := Name tx;
          Symbol := Symbol tx;
          Denomination := Denomination tx;
          States := States tx ++ [st] |} |}.
End internalavm.

Module vmargs.
(** The request and record shapes, read off the fields the function
    uses; maps are kept as the list of their entries in the order in
    which [range] visits them. *)
Record AssetDefinition := {
  Name : string;
  Symbol : string;
  Denomination : Z;
  InitialState : list (string * list JSON);
  Memo : string
}.
Record BuildGenesisArgs := {
  NetworkID : Z;
  GenesisData : list (string * AssetDefinition);
  Encoding : formatting.Encoding
}.
Record BuildGenesisReply := {
  Bytes : string;
  ReplyEncoding : formatting.Encoding
}.
Record Holder := {
  Amount : Z;
  Address : string
}.
Record Owners := {
  Minters : list string
}.
End vmargs.

Module wrappers.
(** Modelled from the spec: [wrappers.Errs] is not part of the file;
    it is the "error aggregation idiom (collecting several independent
    setup errors before checking one combined flag)". The first error
    added is the one kept. *)
Record Errs := { ErrsErr : option error }.

Definition Add (errs : Errs) (es : list (option error)) : Errs :=
  match ErrsErr errs with
  | Some _ => errs
  | None => {| ErrsErr := List.fold_right
                            (fun e acc => match e with Some _ => e | None => acc end)
                            None es |}
  end.
Definition Errored (errs : Errs) : bool :=
  match ErrsErr errs with Some _ => true | None => false end.
End wrappers.

Definition errUnknownAssetType : error := New "unknown asset type".
Definition codecVersion : Z := 0.

(** ** The function *)

(** The external collaborators of the function: the codec's type
    registration, the text encoding of byte strings, the address text
    codec, the JSON reinterpretation of a record, and the binary codec. *)
Class Collaborators : Type := {
  (** The outcomes of the ten [c.RegisterType] calls and of
      [manager.RegisterCodec], in the order they are passed to [errs.Add]. *)
  registrations : list (option error);
  formatting_Decode : formatting.Encoding -> string -> result bytes;
  (** [formatting.Encode] returns a string together with its error. *)
  formatting_Encode : formatting.Encoding -> bytes -> string * option error;
  formatting_ParseBech32 : string -> result (string * bytes);
  json_Marshal : JSON -> result bytes;
  json_Unmarshal_Holder : bytes -> result vmargs.Holder;
  json_Unmarshal_Owners : bytes -> result vmargs.Owners;
  (** [manager.Marshal(version, &g)] *)
  manager_Marshal : Z -> internalavm.Genesis -> result bytes;
  (** The canonical binary encoding of one output and of one asset
      transaction, the sort keys of the canonical ordering. *)
  marshalOutput : internalavm.Output -> bytes;
  marshalAsset : internalavm.GenesisAsset -> bytes;
  (** [ids.Empty] *)
  ids_Empty : ids.ID;
  (** The reordering that [asset.Sort()] applies to the asset's states. *)
  sortInitialStates :
    list internalavm.InitialState -> list internalavm.InitialState
}.

Section BuildGenesis.

Context {C : Collaborators}.

(** Modelled from the spec: [InitialState.Sort] is not part of the file;
    outputs within a group are "ordered first by each output's own
    canonical binary encoding, ties broken by declaration order". *)
Definition InitialState_Sort (st : internalavm.InitialState)
  : internalavm.InitialState :=
  {| internalavm.FxID := internalavm.FxID st;
     internalavm.Outs := sort_by marshalOutput (internalavm.Outs st) |}.

(** [asset.Sort()]: only the order of the states may change. *)
Definition GenesisAsset_Sort (a : internalavm.GenesisAsset)
  : internalavm.GenesisAsset :=
  let tx := internalavm.EmbeddedCreateAssetTx a in
  {| internalavm.Alias := internalavm.Alias a;
     internalavm.EmbeddedCreateAssetTx :=
       {| internalavm.EmbeddedBaseTx := internalavm.EmbeddedBaseTx tx;
          internalavm.Name := internalavm.Name tx;
          internalavm.Symbol := internalavm.Symbol tx;
          internalavm.Denomination := internalavm.Denomination tx;
          internalavm.States := sortInitialStates (internalavm.States tx) |} |}.

(** Modelled from the spec: [Genesis.Sort] is not part of the file;
    assets within the genesis are "ordered by each GenesisAssetTx's
    canonical binary encoding, full stop". *)
Definition Genesis_Sort (g : internalavm.Genesis) : internalavm.Genesis :=
  {| internalavm.Txs := sort_by marshalAsset (internalavm.Txs g) |}.

(** The Address Resolver as the function calls it: [ParseBech32], then
    [ToShortID] on the decoded bytes, both errors under one message. *)
Definition resolveAddress (msg : string) (address : string)
  : result ids.ShortID :=
  parsed <- wrap msg (formatting_ParseBech32 address) ;;
  wrap msg (ids.ToShortID (snd parsed)).

(** Lines 76-98: one record under ["fixedCap"]. *)
Definition fixedCapOutput (state : JSON) : result internalavm.Output :=
  b <- wrap "problem marshaling state: %w" (json_Marshal state) ;;
  holder <- wrap "problem unmarshaling holder: %w" (json_Unmarshal_Holder b) ;;
  addr <- resolveAddress "problem parsing holder address: %w"
            (vmargs.Address holder) ;;
  Ok (internalavm.Transfer
        {| secp256k1fx.Amt := uint64 (vmargs.Amount holder);
           secp256k1fx.TransferOwners :=
             {| secp256k1fx.Threshold := 1;
                secp256k1fx.Addrs := [addr] |} |}).

(** Lines 116-126: [out.Addrs = append(out.Addrs, addr)]. *)
Definition addMinter (out : secp256k1fx.OutputOwners) (address : string)
  : result secp256k1fx.OutputOwners :=
  addr <- resolveAddress "problem parsing minters address: %w" address ;;
  Ok {| secp256k1fx.Threshold := secp256k1fx.Threshold out;
        secp256k1fx.Addrs := secp256k1fx.Addrs out ++ [addr] |}.

(** Lines 102-129: one record under ["variableCap"]. *)
Definition variableCapOutput (state : JSON) : result internalavm.Output :=
  b <- wrap "problem marshaling state: %w" (json_Marshal state) ;;
  owners <- wrap "problem unmarshaling Owners: %w" (json_Unmarshal_Owners b) ;;
  out <- forRange addMinter
           {| secp256k1fx.Threshold := 1; secp256k1fx.Addrs := [] |}
           (vmargs.Minters owners) ;;
  Ok (internalavm.Mint {| secp256k1fx.MintOwners := secp256k1fx.Sort out |}).

(** [initialState.Outs = append(initialState.Outs, out)] after [body]. *)
Definition appendOutput (body : JSON -> result internalavm.Output)
  (outs : list internalavm.Output) (state : JSON)
  : result (list internalavm.Output) :=
  out <- body state ;; Ok (outs ++ [out]).

(** Lines 72-134: one entry of the initial-state map, the [switch]. *)
Definition addInitialStates (outs : list internalavm.Output)
  (entry : string * list JSON) : result (list internalavm.Output) :=
  let (assetType, initialStates) := entry in
  if String.eqb assetType "fixedCap" then
    forRange (appendOutput fixedCapOutput) outs initialStates
  else if String.eqb assetType "variableCap" then
    forRange (appendOutput variableCapOutput) outs initialStates
  else Err errUnknownAssetType.

(** Lines 50-138: the body of the loop over [args.GenesisData]. *)
Definition buildAsset (args : vmargs.BuildGenesisArgs) (assetAlias : string)
  (assetDefinition : vmargs.AssetDefinition) : result internalavm.GenesisAsset :=
  assetMemo <- wrap "problem formatting asset definition memo due to: %w"
                 (formatting_Decode (vmargs.Encoding args)
                    (vmargs.Memo assetDefinition)) ;;
  let asset :=
    {| internalavm.Alias := assetAlias;
       internalavm.EmbeddedCreateAssetTx :=
         {| internalavm.EmbeddedBaseTx :=
              {| internalavm.AvaxBaseTx :=
                   {| avax.NetworkID := uint32 (vmargs.NetworkID args);
                      avax.BlockchainID := ids_Empty;
                      avax.Memo := assetMemo |} |};
            internalavm.Name := vmargs.Name assetDefinition;
            internalavm.Symbol := vmargs.Symbol assetDefinition;
            internalavm.Denomination :=
              to_byte (vmargs.Denomination assetDefinition);
            internalavm.States := [] |} |} in
  asset' <- (if (0 <? length (vmargs.InitialState assetDefinition))%nat then
               outs <- forRange addInitialStates []
                         (vmargs.InitialState assetDefinition) ;;
               Ok (internalavm.appendState asset
                     (InitialState_Sort
                        {| internalavm.FxID := 0; internalavm.Outs := outs |}))
             else Ok asset) ;;
  Ok (GenesisAsset_Sort asset').

(** [g.Txs = append(g.Txs, &asset)] *)
Definition addAsset (args : vmargs.BuildGenesisArgs)
  (txs : list internalavm.GenesisAsset)
  (entry : string * vmargs.AssetDefinition)
  : result (list internalavm.GenesisAsset) :=
  asset <- buildAsset args (fst entry) (snd entry) ;; Ok (txs ++ [asset]).

(** Lines 48-141: the genesis object handed to the codec. *)
Definition assembleGenesis (args : vmargs.BuildGenesisArgs)
  : result internalavm.Genesis :=
  txs <- forRange (addAsset args) [] (vmargs.GenesisData args) ;;
  Ok (Genesis_Sort {| internalavm.Txs := txs |}).

(** The function returns its error and leaves its answer in [reply];
    the pair is the reply after the call and the returned error. *)
Definition BuildGenesis (args : vmargs.BuildGenesisArgs)
  (reply : vmargs.BuildGenesisReply)
  : vmargs.BuildGenesisReply * option error :=
  let errs := wrappers.Add {| wrappers.ErrsErr := None |} registrations in
  if wrappers.Errored errs then (reply, wrappers.ErrsErr errs)
  else
    match assembleGenesis args with
    | Err e => (reply, Some e)
    | Ok g =>
        match manager_Marshal codecVersion g with
        | Err e => (reply, Some (Wrap "problem marshaling genesis: %w" e))
        | Ok b =>
            let (text, err) := formatting_Encode (vmargs.Encoding args) b in
            let reply1 :=
              {| vmargs.Bytes := text;
                 vmargs.ReplyEncoding := vmargs.ReplyEncoding reply |} in
            match err with
            | Some e =>
                (reply1, Some (Fmt "couldn't encode genesis as string: %s" e))
            | None =>
                ({| vmargs.Bytes := vmargs.Bytes reply1;
                    vmargs.ReplyEncoding := vmargs.Encoding args |}, None)
            end
        end
    end.

End BuildGenesis.

(** ** Requests that differ only in iteration order *)

(** [l'] is [l] in another order, up to [R] on the elements. *)
Definition PermUpTo {A} (R : A -> A -> Prop) (l l' : list A) : Prop :=
  exists m, Permutation l m /\ Forall2 R m l'.

(** The same asset kind with its records in another order. *)
Definition sameEntry (e e' : string * list JSON) : Prop :=
  fst e = fst e' /\ Permutation (snd e) (snd e').

Definition sameDefinition (d d' : vmargs.AssetDefinition) : Prop :=
  vmargs.Name d = vmargs.Name d' /\
  vmargs.Symbol d = vmargs.Symbol d' /\
  vmargs.Denomination d = vmargs.Denomination d' /\
  vmargs.Memo d = vmargs.Memo d' /\
  PermUpTo sameEntry (vmargs.InitialState d) (vmargs.InitialState d').

Definition sameAsset (e e' : string * vmargs.AssetDefinition) : Prop :=
  fst e = fst e' /\ sameDefinition (snd e) (snd e').

(** The same logical request: the entries of [genesisData], of every
    [initialState] map and of every record list, visited in any order. *)
Definition sameRequest (a a' : vmargs.BuildGenesisArgs) : Prop :=
  vmargs.NetworkID a = vmargs.NetworkID a' /\
  vmargs.Encoding a = vmargs.Encoding a' /\
  PermUpTo sameAsset (vmargs.GenesisData a) (vmargs.GenesisData a').

(** ** What the collaborators are expected to provide *)

(** Equal encodings are encodings of equal values. *)
Definition Canonical {A} (enc : A -> bytes) : Prop :=
  forall x y, enc x = enc y -> x = y.

(** An encoding that can be read back from the front of a byte string. *)
Definition Readable {A} (enc : A -> bytes) : Prop :=
  forall x y r s, enc x ++ r = enc y ++ s -> x = y /\ r = s.

(** A failing [formatting.Encode] hands back the empty string. *)
Definition EncodeFailsEmpty (C : Collaborators) : Prop :=
  forall enc b text e, formatting_Encode enc b = (text, Some e) -> text = "".

(** [asset.Sort()] reorders the states and does nothing else to them. *)
Definition SortReorders (C : Collaborators) : Prop :=
  forall l, Permutation (sortInitialStates l) l.

(** An address text is resolved when it parses and decodes to 20 bytes. *)
Definition resolves {C : Collaborators} (address : string) (addr : ids.ShortID)
  : Prop :=
  exists hrp, formatting_ParseBech32 address = Ok (hrp, addr) /\
              length addr = 20%nat.

(** A record reinterpreted in the [{address, amount}] shape. *)
Definition asHolder {C : Collaborators} (state : JSON) (h : vmargs.Holder)
  : Prop :=
  exists b, json_Marshal state = Ok b /\ json_Unmarshal_Holder b = Ok h.

(** A record reinterpreted in the [{minters}] shape. *)
Definition asOwners {C : Collaborators} (state : JSON) (o : vmargs.Owners)
  : Prop :=
  exists b, json_Marshal state = Ok b /\ json_Unmarshal_Owners b = Ok o.

(** The owner list is sorted ascending by binary value. *)
Definition ascending (l : list ids.ShortID) : Prop :=
  Sorted (fun a b => bytes_leb a b = true) l.

(** ** A small instance of the collaborators

    Hexadecimal text for byte strings, a prefixed and checksummed
    hexadecimal address text, a tag-length-value rendering of records,
    and a binary codec that can be read back. The model runs on it. *)

Module Ref.

Definition byte_of_Z (z : Z) : byte :=
  match Byte.of_N (Z.to_N (z mod 256)) with
  | Some b => b
  | None => x00
  end.

Definition Z_of_byte (b : byte) : Z := Z.of_N (Byte.to_N b).

(** [n] bytes, big-endian. *)
Definition be_bytes (n : nat) (z : Z) : bytes :=
  map (fun i => byte_of_Z (Z.shiftr z (8 * Z.of_nat i))) (rev (seq 0 n)).

Definition Z_of_be (b : bytes) : Z :=
  fold_left (fun acc x => acc * 256 + Z_of_byte x) b 0.

Definition hexDigit (n : Z) : ascii :=
  nth (Z.to_nat n) (list_ascii_of_string "0123456789abcdef") "0"%char.

Definition hexValue (c : ascii) : option Z :=
  let n := Z.of_N (N_of_ascii c) in
  if ((48 <=? n) && (n <=? 57))%Z then Some (n - 48)
  else if ((97 <=? n) && (n <=? 102))%Z then Some (n - 87)
  else None.

Fixpoint hexOfBytes (b : bytes) : string :=
  match b with
  | [] => ""
  | x :: b' =>
      String (hexDigit (Z_of_byte x / 16))
        (String (hexDigit (Z_of_byte x mod 16)) (hexOfBytes b'))
  end.

Fixpoint bytesOfHex (s : string) : option bytes :=
  match s with
  | "" => Some []
  | String c1 (String c2 rest) =>
      match hexValue c1, hexValue c2, bytesOfHex rest with
      | Some h, Some l, Some bs => Some (byte_of_Z (h * 16 + l) :: bs)
      | _, _, _ => None
      end
  | String _ "" => None
  end.

Definition Decode (enc : formatting.Encoding) (s : string) : result bytes :=
  let digits :=
    match enc, s with
    | formatting.Hex, String "0" (String "x" rest) => Some rest
    | formatting.Hex, _ => None
    | formatting.CB58, _ => Some s
    end in
  match digits with
  | None => Err (New "missing 0x prefix")
  | Some d =>
      match bytesOfHex d with
      | Some b => Ok b
      | None => Err (New "invalid character")
      end
  end.

(** The checksummed encoding refuses long inputs. *)
Definition Encode (enc : formatting.Encoding) (b : bytes)
  : string * option error :=
  match enc with
  | formatting.Hex => (String "0" (String "x" (hexOfBytes b)), None)
  | formatting.CB58 =>
      if (length b <=? 64)%nat then (hexOfBytes b, None)
      else ("", Some (New "byte slice too long"))
  end.

Definition checksum (b : bytes) : byte :=
  byte_of_Z (fold_left (fun acc x => acc + Z_of_byte x) b 0).

(** The text up to the first ["1"], and the text after it. *)
Fixpoint splitPrefix (s : string) : option (string * string) :=
  match s with
  | "" => None
  | String c rest =>
      if Ascii.eqb c "1" then Some ("", rest)
      else
        match splitPrefix rest with
        | Some (hrp, data) => Some (String c hrp, data)
        | None => None
        end
  end.

Definition ParseBech32 (s : string) : result (string * bytes) :=
  match splitPrefix s with
  | None => Err (New "no separator")
  | Some (hrp, data) =>
      match bytesOfHex data with
      | None => Err (New "invalid character")
      | Some b =>
          match rev b with
          | [] => Err (New "missing checksum")
          | c :: payload' =>
              let payload := rev payload' in
              if N.eqb (Byte.to_N c) (Byte.to_N (checksum payload))
              then Ok (hrp, payload)
              else Err (New "checksum failed")
          end
      end
  end.

(** The text of the address with the given prefix and payload. *)
Definition addressText (hrp : string) (payload : bytes) : string :=
  String.append hrp
    (String "1" (hexOfBytes (payload ++ [checksum payload]))).

Definition lenByte (n : nat) : byte := byte_of_Z (Z.of_nat n).

Definition itemBytes (v : JSON) : bytes :=
  match v with
  | JString s => lenByte (String.length s) :: list_byte_of_string s
  | _ => []
  end.

Definition valueBytes (v : JSON) : byte * bytes :=
  match v with
  | JString s => ("S"%byte, list_byte_of_string s)
  | JNumber n => ("N"%byte, be_bytes 8 n)
  | JArray items => ("A"%byte, concat (map itemBytes items))
  | _ => ("?"%byte, [])
  end.

Definition fieldBytes (f : string * JSON) : bytes :=
  let (tag, v) := valueBytes (snd f) in
  tag :: lenByte (String.length (fst f)) :: list_byte_of_string (fst f)
    ++ lenByte (length v) :: v.

Definition Marshal (v : JSON) : result bytes :=
  match v with
  | JObject fields => Ok (concat (map fieldBytes fields))
  | _ => Ok ["?"%byte]
  end.

Definition byteLen (b : byte) : nat := Z.to_nat (Z_of_byte b).

Fixpoint parseFields (fuel : nat) (b : bytes)
  : option (list (byte * string * bytes)) :=
  match fuel, b with
  | _, [] => Some []
  | S fuel', tag :: klen :: rest =>
      let key := firstn (byteLen klen) rest in
      match skipn (byteLen klen) rest with
      | vlen :: rest' =>
          match parseFields fuel' (skipn (byteLen vlen) rest') with
          | Some fs =>
              Some ((tag, string_of_list_byte key, firstn (byteLen vlen) rest')
                      :: fs)
          | None => None
          end
      | [] => None
      end
  | _, _ => None
  end.

Fixpoint parseItems (fuel : nat) (b : bytes) : list string :=
  match fuel, b with
  | S fuel', len :: rest =>
      string_of_list_byte (firstn (byteLen len) rest)
        :: parseItems fuel' (skipn (byteLen len) rest)
  | _, _ => []
  end.

Fixpoint field (name : string) (fs : list (byte * string * bytes))
  : option (byte * bytes) :=
  match fs with
  | [] => None
  | (tag, key, v) :: fs' =>
      if String.eqb key name then Some (tag, v) else field name fs'
  end.

Definition Unmarshal_Holder (b : bytes) : result vmargs.Holder :=
  match parseFields (length b) b with
  | None => Err (New "cannot unmarshal into Holder")
  | Some fs =>
      address <-
        match field "address" fs with
        | None => Ok ""
        | Some (tag, v) =>
            if N.eqb (Byte.to_N tag) (Byte.to_N "S"%byte)
            then Ok (string_of_list_byte v)
            else Err (New "cannot unmarshal address")
        end ;;
      amount <-
        match field "amount" fs with
        | None => Ok 0
        | Some (tag, v) =>
            if N.eqb (Byte.to_N tag) (Byte.to_N "N"%byte)
            then Ok (Z_of_be v)
            else Err (New "cannot unmarshal amount")
        end ;;
      Ok {| vmargs.Amount := amount; vmargs.Address := address |}
  end.

Definition Unmarshal_Owners (b : bytes) : result vmargs.Owners :=
  match parseFields (length b) b with
  | None => Err (New "cannot unmarshal into Owners")
  | Some fs =>
      match field "minters" fs with
      | None => Ok {| vmargs.Minters := [] |}
      | Some (tag, v) =>
          if N.eqb (Byte.to_N tag) (Byte.to_N "A"%byte)
          then Ok {| vmargs.Minters := parseItems (length v) v |}
          else Err (New "cannot unmarshal minters")
      end
  end.

(** The binary codec. Every value is written so that it can be read
    back from the front of a byte string: a number as its sign and its
    bits up to an end mark, a list with a mark in front of every element
    and an end mark, a record as its fields one after the other, an
    output behind the tag of its registered type. *)
Fixpoint encPositive (p : positive) : bytes :=
  match p with
  | xH => [x02]
  | xO p' => x00 :: encPositive p'
  | xI p' => x01 :: encPositive p'
  end.

Definition encZ (z : Z) : bytes :=
  match z with
  | Z0 => [x00]
  | Zpos p => x01 :: encPositive p
  | Zneg p => x02 :: encPositive p
  end.

Fixpoint encList {A} (enc : A -> bytes) (l : list A) : bytes :=
  match l with
  | [] => [x00]
  | x :: l' => x01 :: enc x ++ encList enc l'
  end.

Definition encByte (b : byte) : bytes := [b].
Definition encBytes (b : bytes) : bytes := encList encByte b.
Definition encString (s : string) : bytes := encBytes (list_byte_of_string s).

Definition encOwners (o : secp256k1fx.OutputOwners) : bytes :=
  encZ (secp256k1fx.Threshold o) ++ encList encBytes (secp256k1fx.Addrs o).

Definition MarshalOutput (o : internalavm.Output) : bytes :=
  match o with
  | internalavm.Mint m => x06 :: encOwners (secp256k1fx.MintOwners m)
  | internalavm.Transfer t =>
      x07 :: encZ (secp256k1fx.Amt t)
        ++ encOwners (secp256k1fx.TransferOwners t)
  end.

Definition encState (st : internalavm.InitialState) : bytes :=
  encZ (internalavm.FxID st) ++ encList MarshalOutput (internalavm.Outs st).

Definition MarshalAsset (a : internalavm.GenesisAsset) : bytes :=
  let tx := internalavm.EmbeddedCreateAssetTx a in
  let base := internalavm.AvaxBaseTx (internalavm.EmbeddedBaseTx tx) in
  encString (internalavm.Alias a)
    ++ encZ (avax.NetworkID base)
    ++ encBytes (avax.BlockchainID base)
    ++ encBytes (avax.Memo base)
    ++ encString (internalavm.Name tx)
    ++ encString (internalavm.Symbol tx)
    ++ encZ (internalavm.Denomination tx)
    ++ encList encState (internalavm.States tx).

Definition MarshalGenesis (version : Z) (g : internalavm.Genesis)
  : result bytes :=
  Ok (be_bytes 2 version
        ++ encList MarshalAsset (internalavm.Txs g)).

Definition collaborators : Collaborators :=
  {| registrations := repeat None 11;
     formatting_Decode := Decode;
     formatting_Encode := Encode;
     formatting_ParseBech32 := ParseBech32;
     json_Marshal := Marshal;
     json_Unmarshal_Holder := Unmarshal_Holder;
     json_Unmarshal_Owners := Unmarshal_Owners;
     manager_Marshal := MarshalGenesis;
     marshalOutput := MarshalOutput;
     marshalAsset := MarshalAsset;
     ids_Empty := repeat x00 32;
     sortInitialStates :=
       sort_by (fun st => be_bytes 4 (internalavm.FxID st)) |}.

End Ref.

(** ** What one entry and one initial-state map contribute *)

Section Contributions.

Context {C : Collaborators}.

(** The outputs appended for one entry of the initial-state map. *)
Definition entryOutputs (entry : string * list JSON)
  : result (list internalavm.Output) :=
  addInitialStates [] entry.

(** The outputs accumulated over a whole initial-state map. *)
Definition allOutputs (entries : list (string * list JSON))
  : result (list internalavm.Output) :=
  forRange addInitialStates [] entries.

(** [out] is the transfer output of the record [state]. *)
Definition transferOf (state : JSON) (out : internalavm.Output) : Prop :=
  exists h addr,
    asHolder state h /\ resolves (vmargs.Address h) addr /\
    out = internalavm.Transfer
            {| secp256k1fx.Amt := uint64 (vmargs.Amount h);
               secp256k1fx.TransferOwners :=
                 {| secp256k1fx.Threshold := 1;
                    secp256k1fx.Addrs := [addr] |} |}.

(** [out] is the mint output of the record [state]: all its minters,
    resolved, in ascending order. *)
Definition mintOf (state : JSON) (out : internalavm.Output) : Prop :=
  exists o addrs sorted,
    asOwners state o /\ Forall2 resolves (vmargs.Minters o) addrs /\
    Permutation sorted addrs /\ ascending sorted /\
    out = internalavm.Mint
            {| secp256k1fx.MintOwners :=
                 {| secp256k1fx.Threshold := 1;
                    secp256k1fx.Addrs := sorted |} |}.

(** The address text is refused by the Address Resolver. *)
Definition badAddress (address : string) : Prop :=
  (exists e, formatting_ParseBech32 address = Err e) \/
  (exists hrp b, formatting_ParseBech32 address = Ok (hrp, b) /\
                 length b <> 20%nat).

(** The errors reported for an address that does not resolve: the one
    of a holder and the one of a minter. *)
Definition addressFormatError (e : error) : Prop :=
  exists inner,
    e = Wrap "problem parsing holder address: %w" inner \/
    e = Wrap "problem parsing minters address: %w" inner.

Definition knownTag (assetType : string) : Prop :=
  assetType = "fixedCap" \/ assetType = "variableCap".

End Contributions.

(** ** Sample requests, on the small instance *)

Module Sample.

Definition idA : ids.ShortID := repeat x01 20.
Definition idB : ids.ShortID := repeat x02 20.
Definition idC : ids.ShortID := repeat x03 20.

Definition addrA : string := Eval vm_compute in Ref.addressText "local" idA.
Definition addrB : string := Eval vm_compute in Ref.addressText "local" idB.
Definition addrC : string := Eval vm_compute in Ref.addressText "local" idC.
(** Twenty bytes behind a wrong checksum. *)
Definition addrBadChecksum : string :=
  "local10101010101010101010101010101010101010101ff".
(** A valid checksum, but only two bytes. *)
Definition addrShort : string :=
  Eval vm_compute in Ref.addressText "local" [x01; x02].

Definition holder (address : string) (amount : Z) : JSON :=
  JObject [("address", JString address); ("amount", JNumber amount)].
Definition minters (addresses : list string) : JSON :=
  JObject [("minters", JArray (map JString addresses))].

Definition definition (name : string) (denomination : Z)
  (initialState : list (string * list JSON)) (memo : string)
  : vmargs.AssetDefinition :=
  {| vmargs.Name := name;
     vmargs.Symbol := "SYM";
     vmargs.Denomination := denomination;
     vmargs.InitialState := initialState;
     vmargs.Memo := memo |}.

Definition request (genesisData : list (string * vmargs.AssetDefinition))
  : vmargs.BuildGenesisArgs :=
  {| vmargs.NetworkID := 12345;
     vmargs.GenesisData := genesisData;
     vmargs.Encoding := formatting.Hex |}.

Definition reply0 : vmargs.BuildGenesisReply :=
  {| vmargs.Bytes := "stale"; vmargs.ReplyEncoding := formatting.CB58 |}.

(** One asset of each kind, and the same request with every map and
    every record list in another order. *)
Definition fixedDef : vmargs.AssetDefinition :=
  definition "fixed" 9
    [("fixedCap", [holder addrB 20; holder addrA 10; holder addrC 30])]
    "0x0102".
Definition mixedDef : vmargs.AssetDefinition :=
  definition "mixed" 258
    [("variableCap", [minters [addrB; addrA; addrC]; minters [addrC]]);
     ("fixedCap", [holder addrA 5])]
    "0x".
Definition fixedDef' : vmargs.AssetDefinition :=
  definition "fixed" 9
    [("fixedCap", [holder addrC 30; holder addrB 20; holder addrA 10])]
    "0x0102".
Definition mixedDef' : vmargs.AssetDefinition :=
  definition "mixed" 258
    [("fixedCap", [holder addrA 5]);
     ("variableCap", [minters [addrC]; minters [addrB; addrA; addrC]])]
    "0x".
Definition twoAssets : vmargs.BuildGenesisArgs :=
  request [("alpha", fixedDef); ("beta", mixedDef)].
Definition twoAssets' : vmargs.BuildGenesisArgs :=
  request [("beta", mixedDef'); ("alpha", fixedDef')].

(** An asset without initial state. *)
Definition bareDef : vmargs.AssetDefinition := definition "bare" 0 [] "0x".
Definition bareRequest : vmargs.BuildGenesisArgs := request [("bare", bareDef)].

(** An unknown asset kind, alone and next to a memo that does not decode. *)
Definition unknownDef : vmargs.AssetDefinition :=
  definition "odd" 0 [("unknown", [])] "0x".
Definition unknownRequest : vmargs.BuildGenesisArgs :=
  request [("odd", unknownDef)].
Definition unknownBadMemoDef : vmargs.AssetDefinition :=
  definition "odd" 0 [("unknown", [])] "not hex".
Definition unknownBadMemoRequest : vmargs.BuildGenesisArgs :=
  request [("odd", unknownBadMemoDef)].

(** A holder address with a wrong checksum, next to a valid asset, and
    the same next to a memo that does not decode. *)
Definition badHolderDef : vmargs.AssetDefinition :=
  definition "holder" 0 [("fixedCap", [holder addrBadChecksum 1])] "0x".
Definition badHolderRequest : vmargs.BuildGenesisArgs :=
  request [("alpha", fixedDef); ("holder", badHolderDef)].
Definition badHolderBadMemoDef : vmargs.AssetDefinition :=
  definition "holder" 0 [("fixedCap", [holder addrBadChecksum 1])] "not hex".
Definition badHolderBadMemoRequest : vmargs.BuildGenesisArgs :=
  request [("holder", badHolderBadMemoDef)].

(** A variable-cap record that lists no minters. *)
Definition noMintersDef : vmargs.AssetDefinition :=
  definition "free" 0 [("variableCap", [minters []])] "0x".
Definition noMintersRequest : vmargs.BuildGenesisArgs :=
  request [("free", noMintersDef)].

(** A genesis too long for the checksummed text encoding. *)
Definition longRequest : vmargs.BuildGenesisArgs :=
  {| vmargs.NetworkID := 12345;
     vmargs.GenesisData :=
       [("alpha", definition "fixed" 9 [("fixedCap", [holder addrA 10])] "0102")];
     vmargs.Encoding := formatting.CB58 |}.

End Sample.

(** ** The errors the function words itself *)

(** The format strings under which the function wraps an error of one
    of its collaborators. *)
Definition wrapMessages : list string :=
  ["problem formatting asset definition memo due to: %w";
   "problem marshaling state: %w";
   "problem unmarshaling holder: %w";
   "problem parsing holder address: %w";
   "problem unmarshaling Owners: %w";
   "problem parsing minters address: %w";
   "problem marshaling genesis: %w"].

(** The number of records of an initial-state map. *)
Definition recordCount (entries : list (string * list JSON)) : nat :=
  list_sum (map (fun entry => length (snd entry)) entries).

(** The number of outputs of an asset, over all its groups. *)
Definition outputCount (asset : internalavm.GenesisAsset) : nat :=
  list_sum (map (fun st => length (internalavm.Outs st))
              (internalavm.assetStates asset)).

(** ** More sample requests *)

Module More.

(** The small instance with a type registration that fails. *)
Definition brokenRegistration : Collaborators :=
  {| registrations :=
       [None; None; Some (New "duplicate type registration"); None;
        Some (New "duplicated codec version")];
     formatting_Decode := Ref.Decode;
     formatting_Encode := Ref.Encode;
     formatting_ParseBech32 := Ref.ParseBech32;
     json_Marshal := Ref.Marshal;
     json_Unmarshal_Holder := Ref.Unmarshal_Holder;
     json_Unmarshal_Owners := Ref.Unmarshal_Owners;
     manager_Marshal := Ref.MarshalGenesis;
     marshalOutput := Ref.MarshalOutput;
     marshalAsset := Ref.MarshalAsset;
     ids_Empty := repeat x00 32;
     sortInitialStates :=
       sort_by (fun st => Ref.be_bytes 4 (internalavm.FxID st)) |}.

(** The address of [Sample.idA] under another prefix. *)
Definition addrAOther : string :=
  Eval vm_compute in Ref.addressText "other" Sample.idA.

(** Both asset kinds declared, without any record. *)
Definition noRecordsDef : vmargs.AssetDefinition :=
  Sample.definition "hollow" 0 [("fixedCap", []); ("variableCap", [])] "0x".

(** A minter address with a wrong checksum, behind a valid record. *)
Definition badMinterDef : vmargs.AssetDefinition :=
  Sample.definition "minted" 0
    [("variableCap",
      [Sample.minters [Sample.addrA];
       Sample.minters [Sample.addrB; Sample.addrBadChecksum]])]
    "0x".
Definition badMinterRequest : vmargs.BuildGenesisArgs :=
  Sample.request [("alpha", Sample.fixedDef); ("minted", badMinterDef)].

(** A memo that does not decode, behind a valid asset. *)
Definition badMemoRequest : vmargs.BuildGenesisArgs :=
  Sample.request
    [("alpha", Sample.fixedDef); ("odd", Sample.unknownBadMemoDef)].

(** The second asset of [Sample.twoAssets] alone. *)
Definition betaOnly : vmargs.BuildGenesisArgs :=
  Sample.request [("beta", Sample.mixedDef)].

End More.

(** ** Well-formed requests and what they stand for *)

Section WellFormed.

Context {C : Collaborators}.

(** The outputs that one entry of an initial-state map stands for: one
    output for every record, in the order of the records, of the kind
    of the entry's tag. *)
Definition entryBuilt (entry : string * list JSON)
  (outs : list internalavm.Output) : Prop :=
  (fst entry = "fixedCap" /\ Forall2 transferOf (snd entry) outs) \/
  (fst entry = "variableCap" /\ Forall2 mintOf (snd entry) outs).

(** A record that reads in the shape of its tag and whose addresses all
    resolve. *)
Definition recordIsWellFormed (assetType : string) (state : JSON) : Prop :=
  (assetType = "fixedCap" /\
   exists h addr, asHolder state h /\ resolves (vmargs.Address h) addr) \/
  (assetType = "variableCap" /\
   exists o addrs,
     asOwners state o /\ Forall2 resolves (vmargs.Minters o) addrs).

Definition initialStateIsWellFormed (entries : list (string * list JSON))
  : Prop :=
  forall assetType records,
    In (assetType, records) entries ->
    knownTag assetType /\
    forall state, In state records -> recordIsWellFormed assetType state.

(** Every memo decodes under the encoding of the request and every
    initial-state map is well-formed. *)
Definition requestIsWellFormed (args : vmargs.BuildGenesisArgs) : Prop :=
  forall assetAlias def,
    In (assetAlias, def) (vmargs.GenesisData args) ->
    (exists memo,
       formatting_Decode (vmargs.Encoding args) (vmargs.Memo def) = Ok memo) /\
    initialStateIsWellFormed (vmargs.InitialState def).

End WellFormed.



(** ** Further variants of the small instance and of the samples *)

Module Variants.




End Variants.

(** Tactics that check a sample request record by record. *)
Ltac solve_resolves :=
  eexists; split; [vm_compute; reflexivity | reflexivity].

Ltac solve_record_wf :=
  first
    [ left; split; [reflexivity|];
      eexists; eexists; split;
      [ eexists; split; vm_compute; reflexivity | solve_resolves ]
    | right; split; [reflexivity|];
      eexists; eexists; split;
      [ eexists; split; vm_compute; reflexivity
      | simpl;
        repeat first [ constructor; [solve_resolves|] | constructor ] ] ].

Ltac split_In H :=
  simpl in H; repeat (destruct H as [H|H]); try contradiction.

Ltac solve_initialState_wf :=
  let t := fresh "t" in
  let r := fresh "r" in
  let Ht := fresh "Ht" in
  intros t r Ht; split_In Ht; inversion Ht; subst; clear Ht;
  (split; [first [left; reflexivity | right; reflexivity]|]);
  let st := fresh "st" in
  let Hs := fresh "Hs" in
  intros st Hs; split_In Hs; subst st; solve_record_wf.

Ltac solve_request_wf :=
  let a := fresh "a" in
  let d := fresh "d" in
  let H := fresh "H" in
  intros a d H; split_In H; inversion H; subst; clear H;
  (split; [eexists; vm_compute; reflexivity | solve_initialState_wf]).

(** Read one field off the front of both sides of [H]. *)
Ltac read_field H lemma :=
  rewrite <- ?app_assoc in H;
  let E := fresh "E" in
  apply lemma in H as [E H];
  try (injection E as E); subst.

(** * Properties *)

(** ** The order on byte strings *)

Lemma to_N_inj (x y : byte) : Byte.to_N x = Byte.to_N y -> x = y.
Proof.
  intros H.
  assert (Some x = Some y) as E
    by (rewrite <- (Byte.of_to_N x), <- (Byte.of_to_N y); now rewrite H).
  now inversion E.
Qed.

(** A value that fits in 64 bits is not changed by the conversion. *)
Lemma uint64_in_range (x : Z) : 0 <= x < 2 ^ 64 -> uint64 x = x.
Proof. intros H. unfold uint64. now apply Z.mod_small. Qed.

Lemma bytes_compare_refl (a : bytes) : bytes_compare a a = Eq.
Proof.
  induction a as [|x a IH]; simpl; [reflexivity|].
  now rewrite N.compare_refl.
Qed.

Lemma bytes_compare_eq (a b : bytes) : bytes_compare a b = Eq -> a = b.
Proof.
  revert b; induction a as [|x a IH]; intros [|y b]; simpl;
    try discriminate; [reflexivity|].
  destruct (N.compare_spec (Byte.to_N x) (Byte.to_N y)) as [E| |];
    try discriminate.
  intros H. apply to_N_inj in E. apply IH in H. now subst.
Qed.

Lemma bytes_compare_antisym (a b : bytes) :
  bytes_compare b a = CompOpp (bytes_compare a b).
Proof.
  revert b; induction a as [|x a IH]; intros [|y b]; simpl; try reflexivity.
  rewrite (N.compare_antisym (Byte.to_N x) (Byte.to_N y)).
  destruct (Byte.to_N x ?= Byte.to_N y)%N; simpl; auto.
Qed.

Lemma bytes_leb_total (a b : bytes) :
  bytes_leb a b = true \/ bytes_leb b a = true.
Proof.
  unfold bytes_leb. rewrite (bytes_compare_antisym a b).
  destruct (bytes_compare a b); simpl; auto.
Qed.

Lemma bytes_leb_antisym (a b : bytes) :
  bytes_leb a b = true -> bytes_leb b a = true -> a = b.
Proof.
  unfold bytes_leb. rewrite (bytes_compare_antisym a b).
  destruct (bytes_compare a b) eqn:E; simpl; try discriminate.
  intros _ _. now apply bytes_compare_eq.
Qed.

Lemma bytes_leb_trans (a b c : bytes) :
  bytes_leb a b = true -> bytes_leb b c = true -> bytes_leb a c = true.
Proof.
  unfold bytes_leb.
  revert b c; induction a as [|x a IH]; intros [|y b] [|z c]; simpl;
    try reflexivity; try discriminate.
  destruct (N.compare_spec (Byte.to_N x) (Byte.to_N y)) as [E1|L1|G1];
    destruct (N.compare_spec (Byte.to_N y) (Byte.to_N z)) as [E2|L2|G2];
    try discriminate; intros H1 H2.
  - rewrite E1, E2, N.compare_refl. now apply (IH b c).
  - rewrite E1. now apply N.compare_lt_iff in L2 as ->.
  - rewrite <- E2. now apply N.compare_lt_iff in L1 as ->.
  - assert (Byte.to_N x < Byte.to_N z)%N as L by lia.
    now apply N.compare_lt_iff in L as ->.
Qed.

(** ** Sorting by key *)

Section SortByFacts.

Context {A : Type} (key : A -> bytes).

Lemma insert_by_Permutation (x : A) (l : list A) :
  Permutation (insert_by key x l) (x :: l).
Proof.
  induction l as [|y l IH]; simpl; [reflexivity|].
  destruct (key_leb key x y); [reflexivity|].
  rewrite IH. apply perm_swap.
Qed.

Lemma sort_by_Permutation (l : list A) : Permutation (sort_by key l) l.
Proof.
  induction l as [|x l IH]; simpl; [reflexivity|].
  rewrite insert_by_Permutation. now constructor.
Qed.

Lemma key_le_trans (x y z : A) :
  key_le key x y -> key_le key y z -> key_le key x z.
Proof. unfold key_le, key_leb. apply bytes_leb_trans. Qed.

Lemma key_le_total (x y : A) : key_le key x y \/ key_le key y x.
Proof. unfold key_le, key_leb. apply bytes_leb_total. Qed.

Lemma insert_by_Sorted (x : A) (l : list A) :
  Sorted (key_le key) l -> Sorted (key_le key) (insert_by key x l).
Proof.
  induction l as [|y l IH]; simpl; intros Hs.
  - repeat constructor.
  - destruct (key_leb key x y) eqn:E.
    + constructor; [assumption|]. now constructor.
    + apply Sorted_inv in Hs as [Hs Hy].
      constructor; [now apply IH|].
      assert (key_le key y x) as Hyx
        by (destruct (key_le_total x y) as [H|H];
            [unfold key_le in H; congruence | assumption]).
      destruct l as [|z l]; simpl.
      * now constructor.
      * destruct (key_leb key x z); constructor; try assumption.
        now apply HdRel_inv in Hy.
Qed.

Lemma sort_by_Sorted (l : list A) : Sorted (key_le key) (sort_by key l).
Proof.
  induction l as [|x l IH]; simpl; [constructor|].
  now apply insert_by_Sorted.
Qed.

(** With a canonical key the sorted list depends on the elements only,
    not on the order in which they were given. *)
Lemma sort_by_order_independent (l l' : list A) :
  Canonical key -> Permutation l l' -> sort_by key l = sort_by key l'.
Proof.
  intros Hcan Hperm.
  assert (Transitive (key_le key)) as Htrans
    by (intros x y z; apply key_le_trans).
  apply (Sorted_unique_strong (key_le key)).
  - intros x y _ _ Hxy Hyx. apply Hcan.
    now apply bytes_leb_antisym.
  - apply sort_by_Sorted.
  - apply sort_by_Sorted.
  - now rewrite !sort_by_Permutation.
Qed.

End SortByFacts.

(** ** Loops that stop at the first error *)

Section Loops.

Context {A B : Type} (f : A -> result B).

Lemma mapM_Forall2 (l : list A) (ys : list B) :
  mapM f l = Ok ys <-> Forall2 (fun x y => f x = Ok y) l ys.
Proof.
  revert ys; induction l as [|x l IH]; intros ys; simpl.
  - split; intros H; [inversion H; constructor | now inversion H].
  - destruct (f x) as [y|e] eqn:Ex.
    + destruct (mapM f l) as [zs|e] eqn:El.
      * split; intros H.
        -- inversion H; subst. constructor; [assumption | now apply IH].
        -- inversion H as [|? y' ? zs' Hy Hzs]; subst.
           apply IH in Hzs. congruence.
      * split; intros H; [discriminate|].
        inversion H as [|? y' ? zs' Hy Hzs]; subst.
        apply IH in Hzs. discriminate.
    + split; intros H; [discriminate|].
      inversion H; subst. congruence.
Qed.

Lemma mapM_app (l1 l2 : list A) :
  mapM f (l1 ++ l2) =
  (ys1 <- mapM f l1 ;; ys2 <- mapM f l2 ;; Ok (ys1 ++ ys2)).
Proof.
  induction l1 as [|x l1 IH]; simpl.
  - now destruct (mapM f l2).
  - destruct (f x); simpl; [|reflexivity].
    rewrite IH. destruct (mapM f l1); simpl; [|reflexivity].
    now destruct (mapM f l2).
Qed.

(** An element on which [f] fails makes the whole loop fail. *)
Lemma mapM_fails (l : list A) (x : A) (e : error) :
  In x l -> f x = Err e -> exists e', mapM f l = Err e'.
Proof.
  induction l as [|y l IH]; simpl; [contradiction|].
  intros [->|Hin] Hx.
  - rewrite Hx. eauto.
  - destruct (f y); eauto.
    destruct (IH Hin Hx) as [e' ->]. eauto.
Qed.

Lemma mapM_In (l : list A) (ys : list B) (x : A) :
  mapM f l = Ok ys -> In x l -> exists y, In y ys /\ f x = Ok y.
Proof.
  intros H. apply mapM_Forall2 in H.
  induction H as [|x' y' l' ys' Hxy _ IH]; simpl; [contradiction|].
  intros [->|Hin]; [eauto|].
  destruct (IH Hin) as (y & Hy & Hf). eauto.
Qed.

Lemma mapM_In_result (l : list A) (ys : list B) (y : B) :
  mapM f l = Ok ys -> In y ys -> exists x, In x l /\ f x = Ok y.
Proof.
  intros H. apply mapM_Forall2 in H.
  induction H as [|x' y' l' ys' Hxy _ IH]; simpl; [contradiction|].
  intros [->|Hin]; [eauto|].
  destruct (IH Hin) as (x & Hx & Hf). eauto.
Qed.

Lemma mapM_Permutation (l l' : list A) (ys : list B) :
  Permutation l l' -> mapM f l = Ok ys ->
  exists ys', mapM f l' = Ok ys' /\ Permutation ys ys'.
Proof.
  intros Hp; revert ys.
  induction Hp as [|x l l' _ IH|x y l|l l' l'' _ IH1 _ IH2]; intros ys; simpl.
  - intros H; inversion H; eauto.
  - destruct (f x); [|discriminate].
    destruct (mapM f l) as [zs|]; [|discriminate].
    intros H; inversion H; subst.
    destruct (IH zs eq_refl) as (zs' & -> & Hzs). eauto.
  - destruct (f y); [|discriminate].
    destruct (f x); [|discriminate].
    destruct (mapM f l); [|discriminate].
    intros H; inversion H; subst.
    eexists; split; [reflexivity | apply perm_swap].
  - intros H. destruct (IH1 ys H) as (ys1 & H1 & Hp1).
    destruct (IH2 ys1 H1) as (ys2 & H2 & Hp2).
    exists ys2; split; [assumption | now transitivity ys1].
Qed.

(** A loop that appends what [f] yields for every element. *)
Lemma forRange_append (body : list B -> A -> result (list B))
  (acc : list B) (l : list A) :
  (forall acc x, body acc x = (y <- f x ;; Ok (acc ++ [y]))) ->
  forRange body acc l = (ys <- mapM f l ;; Ok (acc ++ ys)).
Proof.
  intros Hbody; revert acc; induction l as [|x l IH]; intros acc; simpl.
  - now rewrite app_nil_r.
  - rewrite Hbody. destruct (f x) as [y|e]; simpl; [|reflexivity].
    rewrite IH. destruct (mapM f l); simpl; [|reflexivity].
    now rewrite <- app_assoc.
Qed.

End Loops.

(** A loop that appends the list that [f] yields for every element. *)
Lemma forRange_concat {A B} (f : A -> result (list B))
  (body : list B -> A -> result (list B)) (acc : list B) (l : list A) :
  (forall acc x, body acc x = (ys <- f x ;; Ok (acc ++ ys))) ->
  forRange body acc l = (yss <- mapM f l ;; Ok (acc ++ concat yss)).
Proof.
  intros Hbody; revert acc; induction l as [|x l IH]; intros acc; simpl.
  - now rewrite app_nil_r.
  - rewrite Hbody. destruct (f x) as [ys|e]; simpl; [|reflexivity].
    rewrite IH. destruct (mapM f l); simpl; [|reflexivity].
    now rewrite <- app_assoc.
Qed.

(** Related inputs, related outputs. *)
Lemma mapM_Forall2_rel {A A' B B'} (f : A -> result B) (f' : A' -> result B')
  (R : A -> A' -> Prop) (Q : B -> B' -> Prop) :
  (forall x x' y, R x x' -> f x = Ok y -> exists y', f' x' = Ok y' /\ Q y y') ->
  forall l l' ys, Forall2 R l l' -> mapM f l = Ok ys ->
  exists ys', mapM f' l' = Ok ys' /\ Forall2 Q ys ys'.
Proof.
  intros Hf l l' ys HR; revert ys.
  induction HR as [|x x' l l' Hx _ IH]; intros ys; simpl.
  - intros H; inversion H; eauto.
  - destruct (f x) as [y|] eqn:Ex; [|discriminate].
    destruct (mapM f l) as [zs|]; [|discriminate].
    intros H; inversion H; subst.
    destruct (Hf _ _ _ Hx Ex) as (y' & -> & Hq).
    destruct (IH zs eq_refl) as (zs' & -> & Hzs). eauto.
Qed.

Lemma mapM_PermUpTo {A A' B B'} (f : A -> result B) (f' : A' -> result B')
  (R : A -> A' -> Prop) (Q : B -> B' -> Prop) :
  (forall x x' y, R x x' -> f x = Ok y -> exists y', f' x' = Ok y' /\ Q y y') ->
  forall l m l' ys, Permutation l m -> Forall2 R m l' -> mapM f l = Ok ys ->
  exists zs ys', Permutation ys zs /\ Forall2 Q zs ys' /\ mapM f' l' = Ok ys'.
Proof.
  intros Hf l m l' ys Hp HR H.
  destruct (mapM_Permutation f l m ys Hp H) as (zs & Hzs & Hpz).
  destruct (mapM_Forall2_rel f f' R Q Hf m l' zs HR Hzs) as (ys' & Hys & Hq).
  eauto.
Qed.

Lemma concat_Forall2_Permutation {B} (yss zss : list (list B)) :
  Forall2 (fun ys zs => Permutation ys zs) yss zss ->
  Permutation (concat yss) (concat zss).
Proof.
  induction 1 as [|ys zs yss zss Hp _ IH]; simpl; [reflexivity|].
  now apply Permutation_app.
Qed.

Lemma concat_Permutation {B} (yss zss : list (list B)) :
  Permutation yss zss -> Permutation (concat yss) (concat zss).
Proof.
  induction 1 as [|ys yss zss _ IH|ys zs yss|yss zss wss _ IH1 _ IH2]; simpl.
  - reflexivity.
  - now apply Permutation_app_head.
  - rewrite !app_assoc. apply Permutation_app_tail, Permutation_app_comm.
  - now transitivity (concat zss).
Qed.

Lemma Forall2_eq {B} (l l' : list B) : Forall2 eq l l' -> l = l'.
Proof. induction 1; congruence. Qed.

(** ** The steps of the function *)

Section Steps.

Context {C : Collaborators}.

Lemma ToShortID_Ok (b : bytes) (addr : ids.ShortID) :
  ids.ToShortID b = Ok addr <-> addr = b /\ length b = 20%nat.
Proof.
  unfold ids.ToShortID.
  destruct (Nat.eqb_spec (length b) 20%nat) as [E|E]; split.
  - intros H; inversion H; subst; split; [reflexivity | assumption].
  - now intros [-> _].
  - discriminate.
  - intros [_ H]; contradiction.
Qed.

Lemma resolveAddress_Ok (msg address : string) (addr : ids.ShortID) :
  resolveAddress msg address = Ok addr <-> resolves address addr.
Proof.
  unfold resolveAddress, resolves.
  destruct (formatting_ParseBech32 address) as [[hrp b]|e]; simpl.
  - split.
    + intros H.
      destruct (ids.ToShortID b) as [a|] eqn:E; simpl in H; [|discriminate].
      inversion H; subst. apply ToShortID_Ok in E as [-> Hlen]. eauto.
    + intros (hrp' & H & Hlen). inversion H; subst.
      unfold ids.ToShortID. now rewrite Hlen.
  - split; [discriminate|]. intros (hrp & H & _); discriminate.
Qed.

Lemma resolveAddress_Err (msg address : string) :
  badAddress address <->
  exists inner, resolveAddress msg address = Err (Wrap msg inner).
Proof.
  unfold resolveAddress, badAddress.
  destruct (formatting_ParseBech32 address) as [[hrp b]|e]; simpl.
  - unfold ids.ToShortID.
    destruct (Nat.eqb_spec (length b) 20%nat) as [E|E]; simpl; split.
    + intros [(e & H)|(hrp' & b' & H & Hlen)]; [discriminate|].
      inversion H; subst; contradiction.
    + intros (inner & H); discriminate.
    + eauto.
    + intros _. right. eauto.
  - split; eauto.
Qed.

Lemma badAddress_not_resolves (address : string) (addr : ids.ShortID) :
  badAddress address -> ~ resolves address addr.
Proof.
  intros [(e & He)|(hrp & b & Hb & Hlen)] (hrp' & H & Hl);
    rewrite H in *; [discriminate|].
  inversion Hb; subst; contradiction.
Qed.

Lemma fixedCapOutput_Ok (state : JSON) (out : internalavm.Output) :
  fixedCapOutput state = Ok out <-> transferOf state out.
Proof.
  unfold fixedCapOutput, transferOf, asHolder. split.
  - intros H.
    destruct (json_Marshal state) as [b|] eqn:Eb; simpl in H; [|discriminate].
    destruct (json_Unmarshal_Holder b) as [h|] eqn:Eh; simpl in H;
      [|discriminate].
    destruct (resolveAddress _ (vmargs.Address h)) as [addr|] eqn:Ea;
      simpl in H; [|discriminate].
    apply resolveAddress_Ok in Ea. inversion H; subst.
    exists h, addr. eauto.
  - intros (h & addr & (b & Eb & Eh) & Ha & ->).
    rewrite Eb; simpl. rewrite Eh; simpl.
    apply (resolveAddress_Ok "problem parsing holder address: %w") in Ha.
    now rewrite Ha.
Qed.

Lemma forRange_addMinter (out : secp256k1fx.OutputOwners) (l : list string) :
  forRange addMinter out l =
  (addrs <- mapM (resolveAddress "problem parsing minters address: %w") l ;;
   Ok {| secp256k1fx.Threshold := secp256k1fx.Threshold out;
         secp256k1fx.Addrs := secp256k1fx.Addrs out ++ addrs |}).
Proof.
  revert out; induction l as [|a l IH]; intros out; simpl.
  - rewrite app_nil_r. now destruct out.
  - unfold addMinter at 1.
    destruct (resolveAddress _ a) as [addr|e]; simpl; [|reflexivity].
    rewrite IH; simpl.
    destruct (mapM _ l); simpl; [|reflexivity].
    now rewrite <- app_assoc.
Qed.

Lemma mapM_resolveAddress (msg : string) (l : list string)
  (addrs : list ids.ShortID) :
  mapM (resolveAddress msg) l = Ok addrs <-> Forall2 resolves l addrs.
Proof.
  rewrite mapM_Forall2. split; intros H;
    (eapply Forall2_impl; [exact H|]); intros a addr Ha;
    now apply (resolveAddress_Ok msg).
Qed.

Lemma sort_addresses_ascending (addrs : list ids.ShortID) :
  ascending (sort_by (fun a => a) addrs).
Proof. apply (sort_by_Sorted (fun a : bytes => a)). Qed.

Lemma variableCapOutput_Ok (state : JSON) (out : internalavm.Output) :
  variableCapOutput state = Ok out -> mintOf state out.
Proof.
  unfold variableCapOutput, mintOf, asOwners. intros H.
  destruct (json_Marshal state) as [b|] eqn:Eb; simpl in H; [|discriminate].
  destruct (json_Unmarshal_Owners b) as [o|] eqn:Eo; simpl in H;
    [|discriminate].
  rewrite forRange_addMinter in H; simpl in H.
  destruct (mapM _ (vmargs.Minters o)) as [addrs|] eqn:Ea; simpl in H;
    [|discriminate].
  apply mapM_resolveAddress in Ea. inversion H; subst.
  exists o, addrs, (sort_by (fun a => a) addrs).
  split; [eauto|]. split; [assumption|].
  split; [apply sort_by_Permutation|].
  split; [apply sort_addresses_ascending | reflexivity].
Qed.

Lemma variableCapOutput_builds (state : JSON) (out : internalavm.Output) :
  mintOf state out -> variableCapOutput state = Ok out.
Proof.
  intros (o & addrs & sorted & (b & Eb & Eo) & Ha & Hp & Hs & ->).
  unfold variableCapOutput. rewrite Eb; simpl. rewrite Eo; simpl.
  rewrite forRange_addMinter; simpl.
  apply (mapM_resolveAddress "problem parsing minters address: %w") in Ha.
  rewrite Ha; simpl. unfold secp256k1fx.Sort; simpl.
  do 4 f_equal.
  assert (Transitive (fun a b : bytes => bytes_leb a b = true)) as Htrans
    by (intros x y z; apply bytes_leb_trans).
  apply (Sorted_unique_strong (fun a b : bytes => bytes_leb a b = true)).
  - intros x y _ _. apply bytes_leb_antisym.
  - apply sort_addresses_ascending.
  - exact Hs.
  - rewrite sort_by_Permutation. now symmetry.
Qed.

Lemma entryOutputs_eq (assetType : string) (initialStates : list JSON) :
  entryOutputs (assetType, initialStates) =
  if String.eqb assetType "fixedCap" then mapM fixedCapOutput initialStates
  else if String.eqb assetType "variableCap"
       then mapM variableCapOutput initialStates
       else Err errUnknownAssetType.
Proof.
  unfold entryOutputs, addInitialStates.
  destruct (String.eqb assetType "fixedCap");
    [|destruct (String.eqb assetType "variableCap"); [|reflexivity]];
    (rewrite (forRange_append _ (appendOutput _)) by reflexivity);
    simpl; now destruct (mapM _ initialStates).
Qed.

Lemma addInitialStates_eq (outs : list internalavm.Output)
  (entry : string * list JSON) :
  addInitialStates outs entry = (ys <- entryOutputs entry ;; Ok (outs ++ ys)).
Proof.
  destruct entry as [assetType initialStates].
  rewrite entryOutputs_eq. unfold addInitialStates.
  destruct (String.eqb assetType "fixedCap");
    [|destruct (String.eqb assetType "variableCap"); [|reflexivity]];
    now rewrite (forRange_append _ (appendOutput _)) by reflexivity.
Qed.

Lemma allOutputs_eq (entries : list (string * list JSON)) :
  allOutputs entries = (yss <- mapM entryOutputs entries ;; Ok (concat yss)).
Proof.
  unfold allOutputs.
  rewrite (forRange_concat entryOutputs) by apply addInitialStates_eq.
  reflexivity.
Qed.

End Steps.

(** ** One asset, the genesis, the reply *)

Section Assembly.

Context {C : Collaborators}.

Lemma length_pos_nonempty {A} (l : list A) :
  (0 <? length l)%nat = true <-> l <> [].
Proof.
  destruct l; split; intros H; try reflexivity; try discriminate.
  now contradiction H.
Qed.

Lemma buildAsset_Ok_inv (args : vmargs.BuildGenesisArgs) (assetAlias : string)
  (def : vmargs.AssetDefinition) (asset : internalavm.GenesisAsset) :
  buildAsset args assetAlias def = Ok asset ->
  exists memo,
    formatting_Decode (vmargs.Encoding args) (vmargs.Memo def) = Ok memo /\
    internalavm.Alias asset = assetAlias /\
    internalavm.assetMemo asset = memo /\
    internalavm.assetDenomination asset = to_byte (vmargs.Denomination def) /\
    ((vmargs.InitialState def = [] /\
      internalavm.assetStates asset = sortInitialStates []) \/
     (vmargs.InitialState def <> [] /\
      exists outs,
        allOutputs (vmargs.InitialState def) = Ok outs /\
        internalavm.assetStates asset =
        sortInitialStates
          [{| internalavm.FxID := 0;
              internalavm.Outs := sort_by marshalOutput outs |}])).
Proof.
  unfold buildAsset. intros H.
  destruct (formatting_Decode _ _) as [memo|] eqn:Em; simpl in H;
    [|discriminate].
  exists memo. split; [reflexivity|].
  destruct (0 <? length (vmargs.InitialState def))%nat eqn:El.
  - fold (allOutputs (vmargs.InitialState def)) in H.
    destruct (allOutputs (vmargs.InitialState def)) as [outs|] eqn:Eo;
      simpl in H; [|discriminate].
    inversion H; subst; clear H. repeat (split; [reflexivity|]).
    right. split; [now apply length_pos_nonempty|].
    exists outs. split; reflexivity.
  - simpl in H. inversion H; subst; clear H. repeat (split; [reflexivity|]).
    left. split; [|reflexivity].
    destruct (vmargs.InitialState def); [reflexivity | discriminate].
Qed.

Lemma buildAsset_memo_fails (args : vmargs.BuildGenesisArgs)
  (assetAlias : string) (def : vmargs.AssetDefinition) (inner : error) :
  formatting_Decode (vmargs.Encoding args) (vmargs.Memo def) = Err inner ->
  buildAsset args assetAlias def =
  Err (Wrap "problem formatting asset definition memo due to: %w" inner).
Proof. unfold buildAsset. now intros ->. Qed.

Lemma buildAsset_outputs_fail (args : vmargs.BuildGenesisArgs)
  (assetAlias : string) (def : vmargs.AssetDefinition) (e : error) :
  allOutputs (vmargs.InitialState def) = Err e ->
  exists e', buildAsset args assetAlias def = Err e'.
Proof.
  unfold buildAsset. intros H.
  destruct (formatting_Decode _ _); simpl; [|eauto].
  destruct (0 <? length (vmargs.InitialState def))%nat eqn:El.
  - fold (allOutputs (vmargs.InitialState def)). rewrite H. simpl. eauto.
  - destruct (vmargs.InitialState def); [discriminate | discriminate].
Qed.

Lemma buildAsset_succeeds (args : vmargs.BuildGenesisArgs)
  (assetAlias : string) (def : vmargs.AssetDefinition) (memo : bytes) :
  formatting_Decode (vmargs.Encoding args) (vmargs.Memo def) = Ok memo ->
  (vmargs.InitialState def = [] \/
   exists outs, allOutputs (vmargs.InitialState def) = Ok outs) ->
  exists asset, buildAsset args assetAlias def = Ok asset.
Proof.
  unfold buildAsset. intros -> H; simpl.
  destruct (0 <? length (vmargs.InitialState def))%nat eqn:El.
  - fold (allOutputs (vmargs.InitialState def)).
    destruct H as [H|(outs & ->)]; [rewrite H in El; discriminate|].
    simpl. eauto.
  - simpl. eauto.
Qed.

(** The loop over [args.GenesisData] builds every asset in turn. *)
Lemma assembleGenesis_eq (args : vmargs.BuildGenesisArgs) :
  assembleGenesis args =
  (txs <- mapM (fun entry => buildAsset args (fst entry) (snd entry))
            (vmargs.GenesisData args) ;;
   Ok (Genesis_Sort {| internalavm.Txs := txs |})).
Proof.
  unfold assembleGenesis.
  rewrite (forRange_append
             (fun entry => buildAsset args (fst entry) (snd entry))
             (addAsset args)) by reflexivity.
  simpl. now destruct (mapM _ (vmargs.GenesisData args)).
Qed.

(** Every entry of the request has its asset in the genesis. *)
Lemma assembleGenesis_In (args : vmargs.BuildGenesisArgs)
  (g : internalavm.Genesis) (assetAlias : string)
  (def : vmargs.AssetDefinition) :
  assembleGenesis args = Ok g ->
  In (assetAlias, def) (vmargs.GenesisData args) ->
  exists asset, In asset (internalavm.Txs g) /\
                buildAsset args assetAlias def = Ok asset.
Proof.
  rewrite assembleGenesis_eq. intros H Hin.
  destruct (mapM _ (vmargs.GenesisData args)) as [txs|] eqn:Et; simpl in H;
    [|discriminate].
  inversion H; subst; clear H. simpl.
  destruct (mapM_In _ _ _ _ Et Hin) as (asset & Ha & Hb).
  exists asset. split; [|exact Hb].
  apply (Permutation_in asset (Permutation_sym (sort_by_Permutation _ txs))).
  exact Ha.
Qed.

(** Every asset of the genesis comes from an entry of the request. *)
Lemma assembleGenesis_In_result (args : vmargs.BuildGenesisArgs)
  (g : internalavm.Genesis) (asset : internalavm.GenesisAsset) :
  assembleGenesis args = Ok g ->
  In asset (internalavm.Txs g) ->
  exists assetAlias def,
    In (assetAlias, def) (vmargs.GenesisData args) /\
    buildAsset args assetAlias def = Ok asset.
Proof.
  rewrite assembleGenesis_eq. intros H Hin.
  destruct (mapM _ (vmargs.GenesisData args)) as [txs|] eqn:Et; simpl in H;
    [|discriminate].
  inversion H; subst; clear H. simpl in Hin.
  apply (Permutation_in asset (sort_by_Permutation _ txs)) in Hin.
  destruct (mapM_In_result _ _ _ _ Et Hin) as ([a d] & Ha & Hb).
  exists a, d. split; assumption.
Qed.

Lemma assembleGenesis_fails (args : vmargs.BuildGenesisArgs)
  (assetAlias : string) (def : vmargs.AssetDefinition) (e : error) :
  In (assetAlias, def) (vmargs.GenesisData args) ->
  buildAsset args assetAlias def = Err e ->
  exists e', assembleGenesis args = Err e'.
Proof.
  intros Hin He. rewrite assembleGenesis_eq.
  destruct (mapM_fails
              (fun entry => buildAsset args (fst entry) (snd entry))
              _ (assetAlias, def) e Hin He) as (e' & ->).
  simpl. eauto.
Qed.

Lemma registrations_clean :
  Forall (eq None) registrations ->
  wrappers.Errored
    (wrappers.Add {| wrappers.ErrsErr := None |} registrations) = false.
Proof.
  unfold wrappers.Errored, wrappers.Add; simpl.
  induction 1 as [|r l Hr _ IH]; simpl; [reflexivity|].
  now subst.
Qed.

(** A failed assembly is a failed call that leaves the reply alone. *)
Lemma BuildGenesis_assembly_fails (args : vmargs.BuildGenesisArgs)
  (reply : vmargs.BuildGenesisReply) (e : error) :
  assembleGenesis args = Err e ->
  exists e', BuildGenesis args reply = (reply, Some e') /\
             (Forall (eq None) registrations -> e' = e).
Proof.
  intros H. unfold BuildGenesis.
  destruct (wrappers.Errored _) eqn:Er.
  - unfold wrappers.Errored in Er.
    destruct (wrappers.ErrsErr _) as [e'|] eqn:Ee; [|discriminate].
    exists e'. split; [reflexivity|].
    intros Hclean. apply registrations_clean in Hclean.
    unfold wrappers.Errored in Hclean. rewrite Ee in Hclean. discriminate.
  - rewrite H. eauto.
Qed.

Lemma sortInitialStates_nil : SortReorders C -> sortInitialStates [] = [].
Proof. intros H. apply Permutation_nil. symmetry. apply H. Qed.

Lemma sortInitialStates_one (st : internalavm.InitialState) :
  SortReorders C -> sortInitialStates [st] = [st].
Proof. intros H. apply Permutation_length_1_inv. symmetry. apply H. Qed.

End Assembly.

(** ** The small instance meets the expectations *)

Lemma Ref_EncodeFailsEmpty : EncodeFailsEmpty Ref.collaborators.
Proof.
  intros enc b text e. simpl. unfold Ref.Encode.
  destruct enc; [|discriminate].
  destruct (length b <=? 64)%nat; [discriminate|].
  intros H; now inversion H.
Qed.

Lemma Ref_SortReorders : SortReorders Ref.collaborators.
Proof. intros l. simpl. apply sort_by_Permutation. Qed.

(** ** Errors are atomic *)

Section Reply.

Context {C : Collaborators}.

Lemma BuildGenesis_Ok_inv (args : vmargs.BuildGenesisArgs)
  (reply reply' : vmargs.BuildGenesisReply) :
  BuildGenesis args reply = (reply', None) ->
  exists g b text,
    assembleGenesis args = Ok g /\
    manager_Marshal codecVersion g = Ok b /\
    formatting_Encode (vmargs.Encoding args) b = (text, None) /\
    reply' = {| vmargs.Bytes := text;
                vmargs.ReplyEncoding := vmargs.Encoding args |}.
Proof.
  unfold BuildGenesis.
  destruct (wrappers.Errored _) eqn:Er.
  - unfold wrappers.Errored in Er.
    destruct (wrappers.ErrsErr _); [|discriminate].
    intros H; discriminate.
  - destruct (assembleGenesis args) as [g|] eqn:Eg; [|intros H; discriminate].
    destruct (manager_Marshal codecVersion g) as [b|] eqn:Eb;
      [|intros H; discriminate].
    destruct (formatting_Encode _ b) as [text [e|]] eqn:Ee;
      intros H; inversion H; subst.
    exists g, b, text. repeat split; reflexivity || assumption.
Qed.

Lemma BuildGenesis_Ok (args : vmargs.BuildGenesisArgs)
  (reply : vmargs.BuildGenesisReply) (g : internalavm.Genesis) (b : bytes)
  (text : string) :
  Forall (eq None) registrations ->
  assembleGenesis args = Ok g ->
  manager_Marshal codecVersion g = Ok b ->
  formatting_Encode (vmargs.Encoding args) b = (text, None) ->
  BuildGenesis args reply =
  ({| vmargs.Bytes := text; vmargs.ReplyEncoding := vmargs.Encoding args |},
   None).
Proof.
  intros Hr Hg Hb He. unfold BuildGenesis.
  rewrite (registrations_clean Hr), Hg, Hb, He. reflexivity.
Qed.


End Reply.



Lemma mapM_succeeds {A B} (f : A -> result B) (l : list A) :
  (forall x, In x l -> exists y, f x = Ok y) -> exists ys, mapM f l = Ok ys.
Proof.
  induction l as [|x l IH]; simpl; intros H; [eauto|].
  destruct (H x (or_introl eq_refl)) as (y & ->).
  destruct IH as (ys & ->); eauto.
Qed.

(** ** Fields of the asset transaction *)

Section Fields.

Context {C : Collaborators}.

(** C9: the denomination stored in an asset's transaction is the
    supplied denomination reduced modulo 256, and a denomination above
    255 does not make the build fail: whatever denomination is put in
    the place of the one of a definition that builds, the definition
    still builds, with that denomination reduced modulo 256. *)
Theorem denomination_is_reduced_mod_256 (args : vmargs.BuildGenesisArgs)
  (g : internalavm.Genesis) (assetAlias : string)
  (def : vmargs.AssetDefinition) :
  assembleGenesis args = Ok g ->
  In (assetAlias, def) (vmargs.GenesisData args) ->
  (exists asset,
     In asset (internalavm.Txs g) /\
     internalavm.Alias asset = assetAlias /\
     internalavm.assetDenomination asset = vmargs.Denomination def mod 256) /\
  (forall d,
     exists asset,
       buildAsset args assetAlias
         {| vmargs.Name := vmargs.Name def;
            vmargs.Symbol := vmargs.Symbol def;
            vmargs.Denomination := d;
            vmargs.InitialState := vmargs.InitialState def;
            vmargs.Memo := vmargs.Memo def |} = Ok asset /\
       internalavm.assetDenomination asset = d mod 256).
Proof.
  intros Hg Hin.
  destruct (assembleGenesis_In _ _ _ _ Hg Hin) as (asset & Ha & Hb).
  destruct (buildAsset_Ok_inv _ _ _ _ Hb)
    as (memo & Hm & Halias & _ & Hd & Hst).
  split; [exists asset; auto|].
  intros d.
  destruct (buildAsset_succeeds args assetAlias
              {| vmargs.Name := vmargs.Name def;
                 vmargs.Symbol := vmargs.Symbol def;
                 vmargs.Denomination := d;
                 vmargs.InitialState := vmargs.InitialState def;
                 vmargs.Memo := vmargs.Memo def |} memo Hm)
    as (asset' & Hb').
  - simpl. destruct Hst as [[-> _]|(_ & outs & Ho & _)]; eauto.
  - exists asset'. split; [exact Hb'|].
    now destruct (buildAsset_Ok_inv _ _ _ _ Hb') as (_ & _ & _ & _ & -> & _).
Qed.

End Fields.

Lemma denomination_is_reduced_mod_256_witness :
  exists g,
    @assembleGenesis Ref.collaborators Sample.twoAssets = Ok g /\
    In ("beta", Sample.mixedDef) (vmargs.GenesisData Sample.twoAssets) /\
    exists asset,
      In asset (internalavm.Txs g) /\
      internalavm.Alias asset = "beta" /\
      internalavm.assetDenomination asset = 2.
Proof.
  destruct (@assembleGenesis Ref.collaborators Sample.twoAssets) as [g|e]
    eqn:E; [|vm_compute in E; discriminate].
  exists g. split; [reflexivity|].
  assert (In ("beta", Sample.mixedDef) (vmargs.GenesisData Sample.twoAssets))
    as Hin by (simpl; auto).
  split; [exact Hin|].
  exact (proj1 (@denomination_is_reduced_mod_256 Ref.collaborators
                  Sample.twoAssets g "beta" Sample.mixedDef E Hin)).
Defined.

(** ** The Initial-State Builder *)

Lemma concat_In_Permutation {B} (yss : list (list B)) (ys : list B) :
  In ys yss -> exists rest, Permutation (concat yss) (ys ++ rest).
Proof.
  intros Hin. apply in_split in Hin as (l1 & l2 & ->).
  exists (concat l1 ++ concat l2).
  rewrite concat_app. simpl.
  rewrite !app_assoc.
  apply Permutation_app_tail, Permutation_app_comm.
Qed.

Section Builder.

Context {C : Collaborators}.


(** What the [switch] appends for one entry. *)
Lemma entryOutputs_Ok_inv (assetType : string) (records : list JSON)
  (outs : list internalavm.Output) :
  entryOutputs (assetType, records) = Ok outs ->
  (assetType = "fixedCap" /\ Forall2 transferOf records outs) \/
  (assetType = "variableCap" /\ Forall2 mintOf records outs).
Proof.
  rewrite entryOutputs_eq.
  destruct (String.eqb_spec assetType "fixedCap") as [->|_].
  - intros H. left. split; [reflexivity|].
    apply mapM_Forall2 in H. eapply Forall2_impl; [exact H|].
    intros state out. apply fixedCapOutput_Ok.
  - destruct (String.eqb_spec assetType "variableCap") as [->|_];
      [|discriminate].
    intros H. right. split; [reflexivity|].
    apply mapM_Forall2 in H. eapply Forall2_impl; [exact H|].
    intros state out. apply variableCapOutput_Ok.
Qed.

Lemma entryOutputs_unknown (assetType : string) (records : list JSON) :
  ~ knownTag assetType ->
  entryOutputs (assetType, records) = Err errUnknownAssetType.
Proof.
  intros Hk. rewrite entryOutputs_eq.
  destruct (String.eqb_spec assetType "fixedCap") as [->|_];
    [contradiction Hk; now left|].
  destruct (String.eqb_spec assetType "variableCap") as [->|_];
    [contradiction Hk; now right|].
  reflexivity.
Qed.

(** The outputs of every entry are among the accumulated outputs. *)
Lemma allOutputs_entry (entries : list (string * list JSON))
  (outs : list internalavm.Output) (entry : string * list JSON) :
  allOutputs entries = Ok outs -> In entry entries ->
  exists os rest,
    entryOutputs entry = Ok os /\ Permutation outs (os ++ rest).
Proof.
  rewrite allOutputs_eq. intros H Hin.
  destruct (mapM entryOutputs entries) as [yss|] eqn:Ey; simpl in H;
    [|discriminate].
  inversion H; subst; clear H.
  destruct (mapM_In _ _ _ _ Ey Hin) as (os & Hos & Hf).
  destruct (concat_In_Permutation yss os Hos) as (rest & Hp).
  eauto.
Qed.

(** Every accumulated output comes from a record of some entry. *)
Lemma allOutputs_provenance (entries : list (string * list JSON))
  (outs : list internalavm.Output) (out : internalavm.Output) :
  allOutputs entries = Ok outs -> In out outs ->
  exists assetType records state,
    In (assetType, records) entries /\ In state records /\
    ((assetType = "fixedCap" /\ transferOf state out) \/
     (assetType = "variableCap" /\ mintOf state out)).
Proof.
  rewrite allOutputs_eq. intros H Hin.
  destruct (mapM entryOutputs entries) as [yss|] eqn:Ey; simpl in H;
    [|discriminate].
  inversion H; subst; clear H.
  apply in_concat in Hin as (os & Hos & Hout).
  destruct (mapM_In_result _ _ _ _ Ey Hos) as ([assetType records] & He & Hf).
  exists assetType, records.
  assert (forall (R : JSON -> internalavm.Output -> Prop),
             Forall2 R records os -> exists state, In state records /\ R state out)
    as Hpick.
  { intros R HR. clear - HR Hout.
    induction HR as [|s o l l' Hso _ IH]; simpl in *; [contradiction|].
    destruct Hout as [->|Hout]; [eauto|].
    destruct (IH Hout) as (state & Hs & HRs). eauto. }
  destruct (entryOutputs_Ok_inv _ _ _ Hf) as [[-> HR]|[-> HR]];
    destruct (Hpick _ HR) as (state & Hs & HRs); exists state; auto.
Qed.

Lemma allOutputs_fails (entries : list (string * list JSON))
  (entry : string * list JSON) (e : error) :
  In entry entries -> entryOutputs entry = Err e ->
  exists e', allOutputs entries = Err e'.
Proof.
  intros Hin He. rewrite allOutputs_eq.
  destruct (mapM_fails entryOutputs entries entry e Hin He) as (e' & ->).
  simpl. eauto.
Qed.

(** A failing entry makes the whole call fail, with the reply as it was. *)
Lemma entry_fails_build_fails (args : vmargs.BuildGenesisArgs)
  (reply : vmargs.BuildGenesisReply) (assetAlias : string)
  (def : vmargs.AssetDefinition) (entry : string * list JSON) (e : error) :
  In (assetAlias, def) (vmargs.GenesisData args) ->
  In entry (vmargs.InitialState def) ->
  entryOutputs entry = Err e ->
  exists e', BuildGenesis args reply = (reply, Some e').
Proof.
  intros Hin He Herr.
  destruct (allOutputs_fails _ _ _ He Herr) as (e1 & H1).
  destruct (buildAsset_outputs_fail args assetAlias def e1 H1) as (e2 & H2).
  destruct (assembleGenesis_fails args assetAlias def e2 Hin H2) as (e3 & H3).
  destruct (BuildGenesis_assembly_fails args reply e3 H3) as (e4 & H4 & _).
  eauto.
Qed.

(** The one group of an asset whose definition declares initial state. *)
Lemma buildAsset_group (args : vmargs.BuildGenesisArgs) (assetAlias : string)
  (def : vmargs.AssetDefinition) (asset : internalavm.GenesisAsset) :
  SortReorders C ->
  buildAsset args assetAlias def = Ok asset ->
  vmargs.InitialState def <> [] ->
  exists outs st,
    allOutputs (vmargs.InitialState def) = Ok outs /\
    internalavm.assetStates asset = [st] /\
    internalavm.FxID st = 0 /\
    internalavm.Outs st = sort_by marshalOutput outs.
Proof.
  intros Hsort Hb Hne.
  destruct (buildAsset_Ok_inv _ _ _ _ Hb)
    as (memo & _ & _ & _ & _ & [[Hnil _]|(_ & outs & Ho & Hst)]);
    [contradiction|].
  rewrite sortInitialStates_one in Hst by assumption.
  exists outs. eexists. repeat split; [exact Ho | exact Hst | ..]; reflexivity.
Qed.

(** The states of an asset: none, or the one group of its definition. *)
Lemma buildAsset_states (args : vmargs.BuildGenesisArgs) (assetAlias : string)
  (def : vmargs.AssetDefinition) (asset : internalavm.GenesisAsset) :
  SortReorders C ->
  buildAsset args assetAlias def = Ok asset ->
  (vmargs.InitialState def = [] /\ internalavm.assetStates asset = []) \/
  (exists outs,
     allOutputs (vmargs.InitialState def) = Ok outs /\
     internalavm.assetStates asset =
     [{| internalavm.FxID := 0;
         internalavm.Outs := sort_by marshalOutput outs |}]).
Proof.
  intros Hsort Hb.
  destruct (buildAsset_Ok_inv _ _ _ _ Hb)
    as (memo & _ & _ & _ & _ & [[Hnil Hst]|(_ & outs & Ho & Hst)]).
  - left. now rewrite sortInitialStates_nil in Hst.
  - right. exists outs. now rewrite sortInitialStates_one in Hst.
Qed.

End Builder.

Section Outputs.

Context {C : Collaborators}.

Lemma Forall2_In_left {A B} (R : A -> B -> Prop) (l : list A) (l' : list B)
  (x : A) :
  Forall2 R l l' -> In x l -> exists y, In y l' /\ R x y.
Proof.
  induction 1 as [|a b l l' Hab _ IH]; simpl; [contradiction|].
  intros [->|Hin]; [eauto|].
  destruct (IH Hin) as (y & Hy & HR). eauto.
Qed.

(** A record that reads as a holder whose address resolves is built
    into its transfer output. *)
Lemma fixedCapOutput_builds (state : JSON) (h : vmargs.Holder)
  (addr : ids.ShortID) :
  asHolder state h ->
  resolves (vmargs.Address h) addr ->
  fixedCapOutput state =
  Ok (internalavm.Transfer
        {| secp256k1fx.Amt := uint64 (vmargs.Amount h);
           secp256k1fx.TransferOwners :=
             {| secp256k1fx.Threshold := 1;
                secp256k1fx.Addrs := [addr] |} |}).
Proof. intros Hh Ha. apply fixedCapOutput_Ok. exists h, addr. auto. Qed.

(** A record that reads as owners whose minters all resolve is built
    into its mint output, the resolved addresses in ascending order. *)
Lemma variableCapOutput_sorted (state : JSON) (o : vmargs.Owners)
  (addrs : list ids.ShortID) :
  asOwners state o ->
  Forall2 resolves (vmargs.Minters o) addrs ->
  variableCapOutput state =
  Ok (internalavm.Mint
        {| secp256k1fx.MintOwners :=
             {| secp256k1fx.Threshold := 1;
                secp256k1fx.Addrs := sort_by (fun a => a) addrs |} |}).
Proof.
  intros Ho Hr. apply variableCapOutput_builds.
  exists o, addrs, (sort_by (fun a => a) addrs).
  repeat split; try assumption.
  - apply sort_by_Permutation.
  - apply sort_addresses_ascending.
Qed.

Lemma entryOutputs_entryBuilt (entry : string * list JSON)
  (outs : list internalavm.Output) :
  entryOutputs entry = Ok outs -> entryBuilt entry outs.
Proof. destruct entry as [t r]. apply entryOutputs_Ok_inv. Qed.

Lemma wellFormed_record_builds (assetType : string) (state : JSON) :
  recordIsWellFormed assetType state ->
  (assetType = "fixedCap" -> exists out, fixedCapOutput state = Ok out) /\
  (assetType = "variableCap" -> exists out, variableCapOutput state = Ok out).
Proof.
  intros [[-> (h & addr & Hh & Ha)]|[-> (o & addrs & Ho & Hr)]]; split;
    intros E; try discriminate E.
  - eexists. now apply (fixedCapOutput_builds state h addr).
  - eexists. now apply (variableCapOutput_sorted state o addrs).
Qed.

Lemma wellFormed_entry_builds (assetType : string) (records : list JSON) :
  knownTag assetType ->
  (forall state, In state records -> recordIsWellFormed assetType state) ->
  exists outs, entryOutputs (assetType, records) = Ok outs.
Proof.
  intros Hk Hrec. rewrite entryOutputs_eq.
  destruct Hk as [->| ->]; simpl; apply mapM_succeeds; intros state Hs.
  - now apply (proj1 (wellFormed_record_builds _ _ (Hrec state Hs))).
  - now apply (proj2 (wellFormed_record_builds _ _ (Hrec state Hs))).
Qed.

Lemma wellFormed_initialState_builds (entries : list (string * list JSON)) :
  initialStateIsWellFormed entries ->
  exists outs, allOutputs entries = Ok outs.
Proof.
  intros Hwf. rewrite allOutputs_eq.
  destruct (mapM_succeeds entryOutputs entries) as (yss & ->).
  - intros [t r] Hin. destruct (Hwf t r Hin) as [Hk Hrec].
    now apply wellFormed_entry_builds.
  - simpl. eauto.
Qed.

Lemma wellFormed_definition_builds (args : vmargs.BuildGenesisArgs)
  (assetAlias : string) (def : vmargs.AssetDefinition) (memo : bytes) :
  formatting_Decode (vmargs.Encoding args) (vmargs.Memo def) = Ok memo ->
  initialStateIsWellFormed (vmargs.InitialState def) ->
  exists asset, buildAsset args assetAlias def = Ok asset.
Proof.
  intros Hm Hwf.
  apply (buildAsset_succeeds args assetAlias def memo Hm).
  right. now apply wellFormed_initialState_builds.
Qed.

(** A well-formed request assembles. *)
Lemma wellFormed_request_assembles (args : vmargs.BuildGenesisArgs) :
  requestIsWellFormed args -> exists g, assembleGenesis args = Ok g.
Proof.
  intros Hwf. rewrite assembleGenesis_eq.
  destruct (mapM_succeeds
              (fun entry => buildAsset args (fst entry) (snd entry))
              (vmargs.GenesisData args)) as (txs & ->).
  - intros [a d] Hin. destruct (Hwf a d Hin) as ((memo & Hm) & Hi).
    now apply (wellFormed_definition_builds args a d memo).
  - simpl. eauto.
Qed.

(** The one group of an asset holds the outputs that the entries of its
    initial-state map stand for, all of them and nothing else. *)
Lemma group_structure (args : vmargs.BuildGenesisArgs) (assetAlias : string)
  (def : vmargs.AssetDefinition) (asset : internalavm.GenesisAsset) :
  SortReorders C ->
  buildAsset args assetAlias def = Ok asset ->
  vmargs.InitialState def <> [] ->
  exists st outss,
    internalavm.assetStates asset = [st] /\
    internalavm.FxID st = 0 /\
    Forall2 entryBuilt (vmargs.InitialState def) outss /\
    Permutation (internalavm.Outs st) (concat outss).
Proof.
  intros Hsort Hb Hne.
  destruct (buildAsset_group _ _ _ _ Hsort Hb Hne)
    as (outs & st & Hall & Hst & Hfx & Houts).
  rewrite allOutputs_eq in Hall.
  destruct (mapM entryOutputs (vmargs.InitialState def)) as [yss|] eqn:Ey;
    simpl in Hall; [|discriminate].
  inversion Hall; subst; clear Hall.
  exists st, yss. repeat split; try assumption.
  - apply mapM_Forall2 in Ey. eapply Forall2_impl; [exact Ey|].
    intros entry ys. apply entryOutputs_entryBuilt.
  - rewrite Houts. apply sort_by_Permutation.
Qed.

Lemma genesis_group_structure (args : vmargs.BuildGenesisArgs)
  (g : internalavm.Genesis) (assetAlias : string)
  (def : vmargs.AssetDefinition) :
  SortReorders C ->
  assembleGenesis args = Ok g ->
  In (assetAlias, def) (vmargs.GenesisData args) ->
  vmargs.InitialState def <> [] ->
  exists asset st outss,
    In asset (internalavm.Txs g) /\
    internalavm.Alias asset = assetAlias /\
    internalavm.assetStates asset = [st] /\
    internalavm.FxID st = 0 /\
    Forall2 entryBuilt (vmargs.InitialState def) outss /\
    Permutation (internalavm.Outs st) (concat outss).
Proof.
  intros Hsort Hg Hin Hne.
  destruct (assembleGenesis_In _ _ _ _ Hg Hin) as (asset & Ha & Hb).
  destruct (group_structure _ _ _ _ Hsort Hb Hne)
    as (st & outss & Hst & Hfx & HF & Hp).
  destruct (buildAsset_Ok_inv _ _ _ _ Hb) as (_ & _ & Halias & _).
  exists asset, st, outss. repeat split; assumption.
Qed.

Lemma In_entry_nonempty {A} (entry : A) (entries : list A) :
  In entry entries -> entries <> [].
Proof. intros Hin E. rewrite E in Hin. contradiction. Qed.

(** C2: every record under the ["variableCap"] tag that reads as owners
    whose minters resolve is built into one MintOutput with threshold 1
    whose owner list is the list of all its resolved minters, sorted
    ascending by binary value; a well-formed request assembles; and the
    one group of the asset holds exactly the outputs that the entries
    of the initial-state map stand for, one for every record, those of
    the ["variableCap"] entry being the MintOutputs of its records. *)
Theorem variableCap_record_yields_sorted_MintOutput
  (args : vmargs.BuildGenesisArgs) (assetAlias : string)
  (def : vmargs.AssetDefinition) (records : list JSON) :
  SortReorders C ->
  In (assetAlias, def) (vmargs.GenesisData args) ->
  In ("variableCap", records) (vmargs.InitialState def) ->
  (forall state o addrs,
     In state records ->
     asOwners state o ->
     Forall2 resolves (vmargs.Minters o) addrs ->
     variableCapOutput state =
     Ok (internalavm.Mint
           {| secp256k1fx.MintOwners :=
                {| secp256k1fx.Threshold := 1;
                   secp256k1fx.Addrs := sort_by (fun a => a) addrs |} |}) /\
     ascending (sort_by (fun a => a) addrs) /\
     Permutation (sort_by (fun a => a) addrs) addrs) /\
  (requestIsWellFormed args -> exists g, assembleGenesis args = Ok g) /\
  (forall g,
     assembleGenesis args = Ok g ->
     exists asset st outss outs,
       In asset (internalavm.Txs g) /\
       internalavm.Alias asset = assetAlias /\
       internalavm.assetStates asset = [st] /\
       Forall2 entryBuilt (vmargs.InitialState def) outss /\
       Permutation (internalavm.Outs st) (concat outss) /\
       In outs outss /\
       Forall2 mintOf records outs).
Proof.
  intros Hsort Hin He. split; [|split].
  - intros state o addrs _ Ho Hr.
    split; [exact (variableCapOutput_sorted state o addrs Ho Hr)|].
    split; [apply sort_addresses_ascending | apply sort_by_Permutation].
  - apply wellFormed_request_assembles.
  - intros g Hg.
    destruct (genesis_group_structure _ _ _ _ Hsort Hg Hin
                (In_entry_nonempty _ _ He))
      as (asset & st & outss & Ha & Halias & Hst & _ & HF & Hp).
    destruct (Forall2_In_left _ _ _ _ HF He) as (outs & Houts & [[E _]|[_ HR]]);
      [discriminate E|].
    exists asset, st, outss, outs. repeat split; assumption.
Qed.



(** C7, as the code has it: every output of the genesis comes from one
    record of the request, a record of an entry of the initial-state
    map of its asset's definition; the TransferOutput of a fixed-cap
    record has exactly one owner address, and the MintOutput of a
    variable-cap record has as many owner addresses as the record lists
    minters, none when it lists none: a record without minters is built
    into a MintOutput without owner address. *)
Theorem output_owners_follow_the_record (args : vmargs.BuildGenesisArgs)
  (g : internalavm.Genesis) (asset : internalavm.GenesisAsset)
  (st : internalavm.InitialState) (out : internalavm.Output) :
  SortReorders C ->
  assembleGenesis args = Ok g ->
  In asset (internalavm.Txs g) ->
  In st (internalavm.assetStates asset) ->
  In out (internalavm.Outs st) ->
  (exists def assetType records state,
     In (internalavm.Alias asset, def) (vmargs.GenesisData args) /\
     In (assetType, records) (vmargs.InitialState def) /\
     In state records /\
     ((assetType = "fixedCap" /\
       transferOf state out /\
       length (secp256k1fx.Addrs (internalavm.owners out)) = 1%nat) \/
      (assetType = "variableCap" /\
       exists o,
         asOwners state o /\ mintOf state out /\
         length (secp256k1fx.Addrs (internalavm.owners out)) =
         length (vmargs.Minters o)))) /\
  (forall state o,
     asOwners state o ->
     vmargs.Minters o = [] ->
     variableCapOutput state =
     Ok (internalavm.Mint
           {| secp256k1fx.MintOwners :=
                {| secp256k1fx.Threshold := 1;
                   secp256k1fx.Addrs := [] |} |})).
Proof.
  intros Hsort Hg Ha Hst Hout. split.
  - destruct (assembleGenesis_In_result _ _ _ Hg Ha) as (a & def & Hin & Hb).
    destruct (buildAsset_Ok_inv _ _ _ _ Hb) as (_ & _ & Halias & _).
    subst a.
    destruct (buildAsset_states _ _ _ _ Hsort Hb)
      as [[_ E]|(outs & Hall & E)]; rewrite E in Hst; simpl in Hst;
      [contradiction|].
    destruct Hst as [<-|[]]. simpl in Hout.
    apply (Permutation_in out (sort_by_Permutation _ outs)) in Hout.
    destruct (allOutputs_provenance _ _ _ Hall Hout)
      as (assetType & records & state & He & Hs & Hcase).
    exists def, assetType, records, state.
    split; [exact Hin|]. split; [exact He|]. split; [exact Hs|].
    destruct Hcase as [[-> Ht]|[-> Hm]].
    + left. split; [reflexivity|]. split; [exact Ht|].
      destruct Ht as (h & addr & _ & _ & ->). reflexivity.
    + right. split; [reflexivity|].
      pose proof Hm as (o & addrs & sorted & Ho & Hr & Hp & _ & E').
      exists o. split; [exact Ho|]. split; [exact Hm|].
      rewrite E'. simpl. rewrite (Permutation_length Hp).
      symmetry. now apply Forall2_length in Hr.
  - intros state o Ho Hnil.
    rewrite (variableCapOutput_sorted state o []); [reflexivity | exact Ho|].
    rewrite Hnil. constructor.
Qed.

(** C10: the memo of an asset definition is decoded with the encoding
    the request declares, and the decoded bytes are the memo of that
    asset's transaction: a definition whose memo decodes and whose
    initial state is well-formed builds into a transaction with exactly
    those bytes, a well-formed request assembles, and in every
    assembled genesis the transaction of the definition carries the
    decoded memo; a memo that does not decode makes [BuildGenesis]
    return an error, with the reply left as it was. *)
Theorem memo_is_decoded_or_build_fails (args : vmargs.BuildGenesisArgs)
  (assetAlias : string) (def : vmargs.AssetDefinition) :
  In (assetAlias, def) (vmargs.GenesisData args) ->
  (forall memo,
     formatting_Decode (vmargs.Encoding args) (vmargs.Memo def) = Ok memo ->
     initialStateIsWellFormed (vmargs.InitialState def) ->
     exists asset,
       buildAsset args assetAlias def = Ok asset /\
       internalavm.Alias asset = assetAlias /\
       internalavm.assetMemo asset = memo) /\
  (requestIsWellFormed args -> exists g, assembleGenesis args = Ok g) /\
  (forall g,
     assembleGenesis args = Ok g ->
     exists asset,
       In asset (internalavm.Txs g) /\
       internalavm.Alias asset = assetAlias /\
       formatting_Decode (vmargs.Encoding args) (vmargs.Memo def) =
       Ok (internalavm.assetMemo asset)) /\
  (forall inner reply,
     formatting_Decode (vmargs.Encoding args) (vmargs.Memo def) = Err inner ->
     exists e, BuildGenesis args reply = (reply, Some e)).
Proof.
  intros Hin. split; [|split; [|split]].
  - intros memo Hm Hwf.
    destruct (wellFormed_definition_builds args assetAlias def memo Hm Hwf)
      as (asset & Hb).
    exists asset. split; [exact Hb|].
    destruct (buildAsset_Ok_inv _ _ _ _ Hb) as (memo' & Hm' & Halias & Hme & _).
    split; [exact Halias | congruence].
  - apply wellFormed_request_assembles.
  - intros g Hg.
    destruct (assembleGenesis_In _ _ _ _ Hg Hin) as (asset & Ha & Hb).
    destruct (buildAsset_Ok_inv _ _ _ _ Hb) as (memo & Hm & Halias & Hme & _).
    exists asset. subst memo. auto.
  - intros inner reply Hd.
    destruct (assembleGenesis_fails args assetAlias def _ Hin
                (buildAsset_memo_fails args assetAlias def inner Hd))
      as (e' & He').
    destruct (BuildGenesis_assembly_fails args reply e' He') as (e & He & _).
    eauto.
Qed.

End Outputs.

(** The minters [B; A; C] of a record come out as [A; B; C]. *)
Example minters_B_A_C_sorted :
  @variableCapOutput Ref.collaborators
    (Sample.minters [Sample.addrB; Sample.addrA; Sample.addrC]) =
  Ok (internalavm.Mint
        {| secp256k1fx.MintOwners :=
             {| secp256k1fx.Threshold := 1;
                secp256k1fx.Addrs := [Sample.idA; Sample.idB; Sample.idC] |} |}).
Proof. vm_compute. reflexivity. Qed.

(** ** The sample requests are well-formed *)

Lemma Ref_registrations_clean :
  Forall (eq None) (@registrations Ref.collaborators).
Proof. simpl. repeat constructor. Qed.

Lemma Ref_twoAssets_wellFormed :
  @requestIsWellFormed Ref.collaborators Sample.twoAssets.
Proof. solve_request_wf. Qed.




Lemma variableCap_record_yields_sorted_MintOutput_witness :
  SortReorders Ref.collaborators /\
  In ("beta", Sample.mixedDef) (vmargs.GenesisData Sample.twoAssets) /\
  In ("variableCap",
      [Sample.minters [Sample.addrB; Sample.addrA; Sample.addrC];
       Sample.minters [Sample.addrC]])
    (vmargs.InitialState Sample.mixedDef) /\
  @requestIsWellFormed Ref.collaborators Sample.twoAssets /\
  (@variableCapOutput Ref.collaborators
     (Sample.minters [Sample.addrB; Sample.addrA; Sample.addrC]) =
   Ok (internalavm.Mint
         {| secp256k1fx.MintOwners :=
              {| secp256k1fx.Threshold := 1;
                 secp256k1fx.Addrs :=
                   sort_by (fun a => a)
                     [Sample.idB; Sample.idA; Sample.idC] |} |}) /\
   ascending (sort_by (fun a => a) [Sample.idB; Sample.idA; Sample.idC]) /\
   Permutation (sort_by (fun a => a) [Sample.idB; Sample.idA; Sample.idC])
     [Sample.idB; Sample.idA; Sample.idC]) /\
  exists g,
    @assembleGenesis Ref.collaborators Sample.twoAssets = Ok g /\
    exists asset st outss outs,
      In asset (internalavm.Txs g) /\
      internalavm.Alias asset = "beta" /\
      internalavm.assetStates asset = [st] /\
      Forall2 (@entryBuilt Ref.collaborators)
        (vmargs.InitialState Sample.mixedDef) outss /\
      Permutation (internalavm.Outs st) (concat outss) /\
      In outs outss /\
      Forall2 (@mintOf Ref.collaborators)
        [Sample.minters [Sample.addrB; Sample.addrA; Sample.addrC];
         Sample.minters [Sample.addrC]] outs.
Proof.
  assert (In ("beta", Sample.mixedDef) (vmargs.GenesisData Sample.twoAssets))
    as Hin by (simpl; auto).
  assert (In ("variableCap",
              [Sample.minters [Sample.addrB; Sample.addrA; Sample.addrC];
               Sample.minters [Sample.addrC]])
            (vmargs.InitialState Sample.mixedDef))
    as He by (simpl; auto).
  pose proof (@variableCap_record_yields_sorted_MintOutput Ref.collaborators
                Sample.twoAssets "beta" Sample.mixedDef _
                Ref_SortReorders Hin He) as (P1 & P2 & P3).
  split; [exact Ref_SortReorders|]. split; [exact Hin|]. split; [exact He|].
  split; [exact Ref_twoAssets_wellFormed|]. split.
  - apply (P1 (Sample.minters [Sample.addrB; Sample.addrA; Sample.addrC])
             {| vmargs.Minters := [Sample.addrB; Sample.addrA; Sample.addrC] |}).
    + left; reflexivity.
    + eexists; split; vm_compute; reflexivity.
    + simpl. repeat first [ constructor; [solve_resolves|] | constructor ].
  - destruct (P2 Ref_twoAssets_wellFormed) as (g & Hg).
    exists g. split; [exact Hg | exact (P3 g Hg)].
Defined.


(** A transfer output carries the amount of its record. *)
Lemma transferOf_amount {C : Collaborators} (state : JSON)
  (out : internalavm.Output) :
  transferOf state out ->
  exists h t,
    asHolder state h /\ out = internalavm.Transfer t /\
    secp256k1fx.Amt t = uint64 (vmargs.Amount h) /\
    (0 <= vmargs.Amount h < 2 ^ 64 -> secp256k1fx.Amt t = vmargs.Amount h) /\
    secp256k1fx.Threshold (secp256k1fx.TransferOwners t) = 1 /\
    exists addr,
      resolves (vmargs.Address h) addr /\
      secp256k1fx.Addrs (secp256k1fx.TransferOwners t) = [addr].
Proof.
  intros (h & addr & Hh & Ha & ->).
  eexists h, _. split; [exact Hh|]. split; [reflexivity|]. simpl.
  split; [reflexivity|]. split; [apply uint64_in_range|].
  split; [reflexivity|]. eauto.
Qed.

(** An address text that decodes to two bytes is refused like one with
    a wrong checksum. *)
Example short_address_is_refused :
  @badAddress Ref.collaborators Sample.addrShort /\
  @fixedCapOutput Ref.collaborators (Sample.holder Sample.addrShort 1) =
  Err (Wrap "problem parsing holder address: %w" (New "invalid hash length")).
Proof.
  split; [|vm_compute; reflexivity].
  right. exists "local", [x01; x02]. split; [vm_compute; reflexivity|].
  discriminate.
Qed.


(** An asset without initial state is encoded. *)
Example bare_asset_is_encoded :
  snd (@BuildGenesis Ref.collaborators Sample.bareRequest Sample.reply0) = None.
Proof. vm_compute. reflexivity. Qed.

(** C7 as written fails: a variable-cap record that lists no minters is
    built, without any error, into a MintOutput that has no owner
    address. *)
Lemma MintOutput_without_owner_address :
  snd (@BuildGenesis Ref.collaborators Sample.noMintersRequest Sample.reply0)
  = None /\
  exists g asset st,
    @assembleGenesis Ref.collaborators Sample.noMintersRequest = Ok g /\
    internalavm.Txs g = [asset] /\
    internalavm.assetStates asset = [st] /\
    internalavm.Outs st =
    [internalavm.Mint
       {| secp256k1fx.MintOwners :=
            {| secp256k1fx.Threshold := 1; secp256k1fx.Addrs := [] |} |}].
Proof.
  split; [vm_compute; reflexivity|].
  do 3 eexists. split; [lazy; reflexivity|].
  split; [reflexivity|]. split; reflexivity.
Qed.

Lemma output_owners_follow_the_record_witness :
  SortReorders Ref.collaborators /\
  exists g asset st out,
    @assembleGenesis Ref.collaborators Sample.noMintersRequest = Ok g /\
    In asset (internalavm.Txs g) /\
    In st (internalavm.assetStates asset) /\
    In out (internalavm.Outs st) /\
    secp256k1fx.Addrs (internalavm.owners out) = [] /\
    exists def assetType records state,
      In (internalavm.Alias asset, def)
        (vmargs.GenesisData Sample.noMintersRequest) /\
      In (assetType, records) (vmargs.InitialState def) /\
      In state records /\
      ((assetType = "fixedCap" /\
        @transferOf Ref.collaborators state out /\
        length (secp256k1fx.Addrs (internalavm.owners out)) = 1%nat) \/
       (assetType = "variableCap" /\
        exists o,
          @asOwners Ref.collaborators state o /\
          @mintOf Ref.collaborators state out /\
          length (secp256k1fx.Addrs (internalavm.owners out)) =
          length (vmargs.Minters o))).
Proof.
  split; [exact Ref_SortReorders|].
  do 4 eexists.
  split; [lazy; reflexivity|].
  split; [left; reflexivity|].
  split; [left; reflexivity|].
  split; [left; reflexivity|].
  split; [reflexivity|].
  eapply proj1.
  eapply (@output_owners_follow_the_record Ref.collaborators
            Sample.noMintersRequest _ _ _ _ Ref_SortReorders).
  - lazy; reflexivity.
  - left; reflexivity.
  - left; reflexivity.
  - left; reflexivity.
Defined.

Lemma memo_is_decoded_or_build_fails_witness :
  In ("alpha", Sample.fixedDef) (vmargs.GenesisData Sample.twoAssets) /\
  @formatting_Decode Ref.collaborators (vmargs.Encoding Sample.twoAssets)
    (vmargs.Memo Sample.fixedDef) = Ok [x01; x02] /\
  @requestIsWellFormed Ref.collaborators Sample.twoAssets /\
  (exists asset,
     @buildAsset Ref.collaborators Sample.twoAssets "alpha" Sample.fixedDef
     = Ok asset /\
     internalavm.Alias asset = "alpha" /\
     internalavm.assetMemo asset = [x01; x02]) /\
  (exists g,
     @assembleGenesis Ref.collaborators Sample.twoAssets = Ok g /\
     exists asset,
       In asset (internalavm.Txs g) /\
       internalavm.Alias asset = "alpha" /\
       @formatting_Decode Ref.collaborators
         (vmargs.Encoding Sample.twoAssets) (vmargs.Memo Sample.fixedDef) =
       Ok (internalavm.assetMemo asset)) /\
  exists e,
    @BuildGenesis Ref.collaborators Sample.unknownBadMemoRequest Sample.reply0
    = (Sample.reply0, Some e).
Proof.
  assert (In ("alpha", Sample.fixedDef) (vmargs.GenesisData Sample.twoAssets))
    as Hin by (simpl; auto).
  pose proof (@memo_is_decoded_or_build_fails Ref.collaborators
                Sample.twoAssets "alpha" Sample.fixedDef Hin)
    as (P1 & P2 & P3 & _).
  split; [exact Hin|]. split; [reflexivity|].
  split; [exact Ref_twoAssets_wellFormed|]. split; [|split].
  - apply (P1 [x01; x02] eq_refl).
    exact (proj2 (Ref_twoAssets_wellFormed "alpha" Sample.fixedDef Hin)).
  - destruct (P2 Ref_twoAssets_wellFormed) as (g & Hg).
    exists g. split; [exact Hg | exact (P3 g Hg)].
  - assert (In ("odd", Sample.unknownBadMemoDef)
              (vmargs.GenesisData Sample.unknownBadMemoRequest))
      as Hin' by (simpl; auto).
    exact (proj2 (proj2 (proj2
             (@memo_is_decoded_or_build_fails Ref.collaborators
                Sample.unknownBadMemoRequest "odd" Sample.unknownBadMemoDef
                Hin')))
             (New "missing 0x prefix") Sample.reply0 eq_refl).
Defined.

(** ** Which error is returned *)

(** The loop fails with the error of the first element that fails. *)
Lemma mapM_first_error {A B} (f : A -> result B) (before after : list A)
  (x : A) (e : error) :
  (forall y, In y before -> exists z, f y = Ok z) ->
  f x = Err e ->
  mapM f (before ++ x :: after) = Err e.
Proof.
  intros Hb Hx. rewrite mapM_app.
  destruct (mapM_succeeds f before Hb) as (ys & ->). simpl.
  now rewrite Hx.
Qed.

Section Errors.

Context {C : Collaborators}.

Lemma buildAsset_outputs_Err (args : vmargs.BuildGenesisArgs)
  (assetAlias : string) (def : vmargs.AssetDefinition) (memo : bytes)
  (e : error) :
  formatting_Decode (vmargs.Encoding args) (vmargs.Memo def) = Ok memo ->
  allOutputs (vmargs.InitialState def) = Err e ->
  buildAsset args assetAlias def = Err e.
Proof.
  unfold buildAsset. intros -> H; simpl.
  destruct (0 <? length (vmargs.InitialState def))%nat eqn:El.
  - fold (allOutputs (vmargs.InitialState def)). now rewrite H.
  - destruct (vmargs.InitialState def); discriminate.
Qed.

(** The error of the first fault met, at an entry of an initial-state
    map, is the error of the whole call. *)
Lemma first_fault_is_returned (args : vmargs.BuildGenesisArgs)
  (reply : vmargs.BuildGenesisReply)
  (before after : list (string * vmargs.AssetDefinition))
  (assetAlias : string) (def : vmargs.AssetDefinition) (memo : bytes)
  (entriesBefore entriesAfter : list (string * list JSON))
  (entry : string * list JSON) (e : error) :
  Forall (eq None) registrations ->
  vmargs.GenesisData args = before ++ (assetAlias, def) :: after ->
  (forall x, In x before ->
             exists asset, buildAsset args (fst x) (snd x) = Ok asset) ->
  formatting_Decode (vmargs.Encoding args) (vmargs.Memo def) = Ok memo ->
  vmargs.InitialState def = entriesBefore ++ entry :: entriesAfter ->
  (forall x, In x entriesBefore -> exists outs, entryOutputs x = Ok outs) ->
  entryOutputs entry = Err e ->
  BuildGenesis args reply = (reply, Some e).
Proof.
  intros Hreg Hdata Hbefore Hmemo Hentries Hebefore Hentry.
  assert (allOutputs (vmargs.InitialState def) = Err e) as Hall.
  { rewrite allOutputs_eq, Hentries.
    now rewrite (mapM_first_error entryOutputs _ _ _ e Hebefore Hentry). }
  pose proof (buildAsset_outputs_Err args assetAlias def memo e Hmemo Hall)
    as Hasset.
  assert (assembleGenesis args = Err e) as Hg.
  { rewrite assembleGenesis_eq, Hdata.
    now rewrite (mapM_first_error
                   (fun x => buildAsset args (fst x) (snd x))
                   before after (assetAlias, def) e Hbefore Hasset). }
  destruct (BuildGenesis_assembly_fails args reply e Hg) as (e' & -> & Heq).
  now rewrite (Heq Hreg).
Qed.

(** C5, as the code has it: a request with an initial-state entry whose
    tag is neither ["fixedCap"] nor ["variableCap"] makes [BuildGenesis]
    return an error and leave the reply as it was; the error is the
    unknown-asset-type error when that entry is the first fault met:
    the type registration succeeded, the assets visited before its asset
    build, the memo of its asset decodes and the entries visited before
    it in its initial-state map build their outputs. *)
Theorem unknown_tag_fails_the_build (args : vmargs.BuildGenesisArgs)
  (reply : vmargs.BuildGenesisReply)
  (before after : list (string * vmargs.AssetDefinition))
  (assetAlias : string) (def : vmargs.AssetDefinition)
  (entriesBefore entriesAfter : list (string * list JSON))
  (assetType : string) (records : list JSON) :
  vmargs.GenesisData args = before ++ (assetAlias, def) :: after ->
  vmargs.InitialState def =
  entriesBefore ++ (assetType, records) :: entriesAfter ->
  ~ knownTag assetType ->
  (exists e, BuildGenesis args reply = (reply, Some e)) /\
  (Forall (eq None) registrations ->
   (forall x, In x before ->
              exists asset, buildAsset args (fst x) (snd x) = Ok asset) ->
   (exists memo,
      formatting_Decode (vmargs.Encoding args) (vmargs.Memo def) = Ok memo) ->
   (forall x, In x entriesBefore -> exists outs, entryOutputs x = Ok outs) ->
   BuildGenesis args reply = (reply, Some errUnknownAssetType)).
Proof.
  intros Hdata Hentries Hk.
  pose proof (entryOutputs_unknown assetType records Hk) as Hu.
  split.
  - apply (entry_fails_build_fails args reply assetAlias def
             (assetType, records) errUnknownAssetType).
    + rewrite Hdata. apply in_elt.
    + rewrite Hentries. apply in_elt.
    + exact Hu.
  - intros Hreg Hbefore (memo & Hmemo) Hebefore.
    exact (first_fault_is_returned args reply before after assetAlias def
             memo entriesBefore entriesAfter (assetType, records)
             errUnknownAssetType Hreg Hdata Hbefore Hmemo Hentries
             Hebefore Hu).
Qed.

(** C6, as the code has it: a request with a fixed-cap holder address
    that fails validation or does not decode to 20 bytes makes
    [BuildGenesis] return an error and leave the reply as it was,
    whatever the other assets are; the error is the address-format error
    of that holder when it is the first fault met: the type registration
    succeeded, the assets visited before its asset build, the memo of
    its asset decodes, the entries visited before its entry build their
    outputs and so do the records in front of it in its list. *)
Theorem bad_holder_address_fails_the_build (args : vmargs.BuildGenesisArgs)
  (reply : vmargs.BuildGenesisReply)
  (before after : list (string * vmargs.AssetDefinition))
  (assetAlias : string) (def : vmargs.AssetDefinition)
  (entriesBefore entriesAfter : list (string * list JSON))
  (recordsBefore recordsAfter : list JSON) (state : JSON)
  (h : vmargs.Holder) :
  vmargs.GenesisData args = before ++ (assetAlias, def) :: after ->
  vmargs.InitialState def =
  entriesBefore
    ++ ("fixedCap", recordsBefore ++ state :: recordsAfter) :: entriesAfter ->
  asHolder state h ->
  badAddress (vmargs.Address h) ->
  (exists e, BuildGenesis args reply = (reply, Some e)) /\
  (Forall (eq None) registrations ->
   (forall x, In x before ->
              exists asset, buildAsset args (fst x) (snd x) = Ok asset) ->
   (exists memo,
      formatting_Decode (vmargs.Encoding args) (vmargs.Memo def) = Ok memo) ->
   (forall x, In x entriesBefore -> exists outs, entryOutputs x = Ok outs) ->
   (forall x, In x recordsBefore -> exists out, transferOf x out) ->
   exists inner,
     BuildGenesis args reply =
     (reply, Some (Wrap "problem parsing holder address: %w" inner)) /\
     addressFormatError (Wrap "problem parsing holder address: %w" inner)).
Proof.
  intros Hdata Hentries (b & Hb & Hh) Hbad.
  apply (resolveAddress_Err "problem parsing holder address: %w") in Hbad
    as (inner & Hinner).
  assert (fixedCapOutput state
          = Err (Wrap "problem parsing holder address: %w" inner)) as Hf
    by (unfold fixedCapOutput; rewrite Hb; simpl; rewrite Hh; simpl;
        now rewrite Hinner).
  split.
  - destruct (mapM_fails fixedCapOutput
                (recordsBefore ++ state :: recordsAfter) state _
                (in_elt _ _ _) Hf) as (e & He).
    apply (entry_fails_build_fails args reply assetAlias def
             ("fixedCap", recordsBefore ++ state :: recordsAfter) e).
    + rewrite Hdata. apply in_elt.
    + rewrite Hentries. apply in_elt.
    + now rewrite entryOutputs_eq.
  - intros Hreg Hbefore (memo & Hmemo) Hebefore Hrbefore.
    exists inner. split; [|exists inner; now left].
    apply (first_fault_is_returned args reply before after assetAlias def
             memo entriesBefore entriesAfter
             ("fixedCap", recordsBefore ++ state :: recordsAfter));
      try assumption.
    rewrite entryOutputs_eq. simpl.
    apply mapM_first_error; [|exact Hf].
    intros x Hx. destruct (Hrbefore x Hx) as (out & Hout).
    exists out. now apply fixedCapOutput_Ok.
Qed.

End Errors.

(** C5 as written fails: the unknown tag sits behind a memo that does
    not decode, and the error returned is the memo's. *)
Lemma unknown_tag_behind_undecodable_memo :
  In ("odd", Sample.unknownBadMemoDef)
    (vmargs.GenesisData Sample.unknownBadMemoRequest) /\
  In ("unknown", []) (vmargs.InitialState Sample.unknownBadMemoDef) /\
  ~ knownTag "unknown" /\
  @BuildGenesis Ref.collaborators Sample.unknownBadMemoRequest Sample.reply0 =
  (Sample.reply0,
   Some (Wrap "problem formatting asset definition memo due to: %w"
           (New "missing 0x prefix"))) /\
  Wrap "problem formatting asset definition memo due to: %w"
    (New "missing 0x prefix") <> errUnknownAssetType.
Proof.
  split; [simpl; auto|]. split; [simpl; auto|].
  split; [intros [H|H]; discriminate H|].
  split; [vm_compute; reflexivity | discriminate].
Qed.

Lemma unknown_tag_fails_the_build_witness :
  vmargs.GenesisData Sample.unknownRequest =
  [] ++ ("odd", Sample.unknownDef) :: [] /\
  vmargs.InitialState Sample.unknownDef = [] ++ ("unknown", []) :: [] /\
  ~ knownTag "unknown" /\
  @BuildGenesis Ref.collaborators Sample.unknownRequest Sample.reply0 =
  (Sample.reply0, Some errUnknownAssetType).
Proof.
  assert (~ knownTag "unknown") as Hk by (intros [H|H]; discriminate H).
  split; [reflexivity|]. split; [reflexivity|]. split; [exact Hk|].
  apply (proj2 (@unknown_tag_fails_the_build Ref.collaborators
                  Sample.unknownRequest Sample.reply0 [] [] "odd"
                  Sample.unknownDef [] [] "unknown" []
                  eq_refl eq_refl Hk) Ref_registrations_clean).
  - intros x [].
  - eexists. vm_compute. reflexivity.
  - intros x [].
Defined.

(** C6 as written fails: the holder address with the wrong checksum
    sits behind a memo that does not decode, and the error returned is
    the memo's, not an address-format error. *)
Lemma bad_holder_address_behind_undecodable_memo :
  In ("holder", Sample.badHolderBadMemoDef)
    (vmargs.GenesisData Sample.badHolderBadMemoRequest) /\
  In ("fixedCap", [Sample.holder Sample.addrBadChecksum 1])
    (vmargs.InitialState Sample.badHolderBadMemoDef) /\
  @asHolder Ref.collaborators (Sample.holder Sample.addrBadChecksum 1)
    {| vmargs.Amount := 1; vmargs.Address := Sample.addrBadChecksum |} /\
  @badAddress Ref.collaborators Sample.addrBadChecksum /\
  @BuildGenesis Ref.collaborators Sample.badHolderBadMemoRequest Sample.reply0
  = (Sample.reply0,
     Some (Wrap "problem formatting asset definition memo due to: %w"
             (New "missing 0x prefix"))) /\
  ~ addressFormatError
      (Wrap "problem formatting asset definition memo due to: %w"
         (New "missing 0x prefix")).
Proof.
  split; [simpl; auto|]. split; [simpl; auto|].
  split; [eexists; split; vm_compute; reflexivity|].
  split; [left; eexists; vm_compute; reflexivity|].
  split; [vm_compute; reflexivity|].
  intros (inner & [H|H]); discriminate H.
Qed.

Lemma bad_holder_address_fails_the_build_witness :
  vmargs.GenesisData Sample.badHolderRequest =
  [("alpha", Sample.fixedDef)] ++ ("holder", Sample.badHolderDef) :: [] /\
  vmargs.InitialState Sample.badHolderDef =
  [] ++ ("fixedCap", [] ++ Sample.holder Sample.addrBadChecksum 1 :: [])
     :: [] /\
  @asHolder Ref.collaborators (Sample.holder Sample.addrBadChecksum 1)
    {| vmargs.Amount := 1; vmargs.Address := Sample.addrBadChecksum |} /\
  @badAddress Ref.collaborators Sample.addrBadChecksum /\
  exists inner,
    @BuildGenesis Ref.collaborators Sample.badHolderRequest Sample.reply0 =
    (Sample.reply0,
     Some (Wrap "problem parsing holder address: %w" inner)) /\
    addressFormatError (Wrap "problem parsing holder address: %w" inner).
Proof.
  assert (@asHolder Ref.collaborators (Sample.holder Sample.addrBadChecksum 1)
            {| vmargs.Amount := 1; vmargs.Address := Sample.addrBadChecksum |})
    as Hh by (eexists; split; vm_compute; reflexivity).
  assert (@badAddress Ref.collaborators Sample.addrBadChecksum)
    as Hbad by (left; eexists; vm_compute; reflexivity).
  split; [reflexivity|]. split; [reflexivity|]. split; [exact Hh|].
  split; [exact Hbad|].
  apply (proj2 (@bad_holder_address_fails_the_build Ref.collaborators
                  Sample.badHolderRequest Sample.reply0
                  [("alpha", Sample.fixedDef)] [] "holder"
                  Sample.badHolderDef [] [] [] []
                  (Sample.holder Sample.addrBadChecksum 1) _
                  eq_refl eq_refl Hh Hbad) Ref_registrations_clean).
  - intros x [<-|[]]. eexists. vm_compute. reflexivity.
  - eexists. vm_compute. reflexivity.
  - intros x [].
  - intros x [].
Defined.

(** ** The codec of the small instance is canonical *)

Lemma Readable_Canonical {A} (enc : A -> bytes) : Readable enc -> Canonical enc.
Proof.
  intros Hr x y H.
  apply (Hr x y [] []). now rewrite !app_nil_r.
Qed.

Lemma encPositive_Readable : Readable Ref.encPositive.
Proof.
  intros x; induction x as [x IH|x IH|]; intros [y|y|] r s H; simpl in H;
    inversion H as [H']; try (apply IH in H' as [-> ->]); auto.
Qed.

Lemma encZ_Readable : Readable Ref.encZ.
Proof.
  intros [|x|x] [|y|y] r s H; simpl in H; inversion H as [H'];
    try (apply encPositive_Readable in H' as [-> ->]); auto.
Qed.

Lemma encByte_Readable : Readable Ref.encByte.
Proof. intros x y r s H. inversion H. auto. Qed.

Lemma encList_Readable {A} (enc : A -> bytes) :
  Readable enc -> Readable (Ref.encList enc).
Proof.
  intros Hr l; induction l as [|x l IH]; intros [|y l'] r s H; simpl in H;
    inversion H as [H']; auto.
  rewrite <- !app_assoc in H'.
  apply Hr in H' as [-> H']. apply IH in H' as [-> ->]. auto.
Qed.

Lemma encBytes_Readable : Readable Ref.encBytes.
Proof. apply encList_Readable, encByte_Readable. Qed.

Lemma encString_Readable : Readable Ref.encString.
Proof.
  intros x y r s H. apply encBytes_Readable in H as [H ->].
  split; [|reflexivity].
  rewrite <- (string_of_list_byte_of_string x),
          <- (string_of_list_byte_of_string y).
  now rewrite H.
Qed.

Lemma encOwners_Readable : Readable Ref.encOwners.
Proof.
  intros [t a] [t' a'] r s H. unfold Ref.encOwners in H. simpl in H.
  read_field H encZ_Readable.
  apply (encList_Readable _ encBytes_Readable) in H as [-> ->]. auto.
Qed.

Lemma MarshalOutput_Readable : Readable Ref.MarshalOutput.
Proof.
  intros [[amt o]|[o]] [[amt' o']|[o']] r s H; simpl in H;
    inversion H as [H']; clear H.
  - read_field H' encZ_Readable.
    apply encOwners_Readable in H' as [-> ->]. auto.
  - apply encOwners_Readable in H' as [-> ->]. auto.
Qed.

Lemma encState_Readable : Readable Ref.encState.
Proof.
  intros [fx outs] [fx' outs'] r s H. unfold Ref.encState in H. simpl in H.
  read_field H encZ_Readable.
  apply (encList_Readable _ MarshalOutput_Readable) in H as [-> ->]. auto.
Qed.

Lemma MarshalAsset_Readable : Readable Ref.MarshalAsset.
Proof.
  intros [alias [[[netid chain memo]] name symbol denom states]]
         [alias' [[[netid' chain' memo']] name' symbol' denom' states']]
         r s H.
  unfold Ref.MarshalAsset in H. simpl in H.
  read_field H encString_Readable.
  read_field H encZ_Readable.
  read_field H encBytes_Readable.
  read_field H encBytes_Readable.
  read_field H encString_Readable.
  read_field H encString_Readable.
  read_field H encZ_Readable.
  apply (encList_Readable _ encState_Readable) in H as [-> ->]. auto.
Qed.

Lemma Ref_marshalOutput_Canonical :
  Canonical (@marshalOutput Ref.collaborators).
Proof. apply Readable_Canonical, MarshalOutput_Readable. Qed.

Lemma Ref_marshalAsset_Canonical :
  Canonical (@marshalAsset Ref.collaborators).
Proof. apply Readable_Canonical, MarshalAsset_Readable. Qed.

(** ** Determinism and order-independence *)

Lemma PermUpTo_length {A} (R : A -> A -> Prop) (l l' : list A) :
  PermUpTo R l l' -> length l = length l'.
Proof.
  intros (m & Hp & HR).
  rewrite (Permutation_length Hp). now apply Forall2_length in HR.
Qed.

Lemma PermUpTo_refl {A} (R : A -> A -> Prop) (l : list A) :
  (forall x, R x x) -> PermUpTo R l l.
Proof.
  intros HR. exists l. split; [reflexivity|].
  induction l; constructor; auto.
Qed.

Lemma sameRequest_refl (args : vmargs.BuildGenesisArgs) : sameRequest args args.
Proof.
  repeat split. apply PermUpTo_refl. intros [a d]. repeat split.
  apply PermUpTo_refl. intros [t r]. now split.
Qed.

Section Order.

Context {C : Collaborators}.

Lemma entryOutputs_sameEntry (entry entry' : string * list JSON)
  (outs : list internalavm.Output) :
  sameEntry entry entry' ->
  entryOutputs entry = Ok outs ->
  exists outs', entryOutputs entry' = Ok outs' /\ Permutation outs outs'.
Proof.
  destruct entry as [t r], entry' as [t' r']. intros [Ht Hp].
  cbn [fst snd] in Ht, Hp. subst t'. rewrite !entryOutputs_eq.
  destruct (String.eqb t "fixedCap");
    [|destruct (String.eqb t "variableCap"); [|discriminate]];
    now apply mapM_Permutation.
Qed.

Lemma allOutputs_PermUpTo (entries entries' : list (string * list JSON))
  (outs : list internalavm.Output) :
  PermUpTo sameEntry entries entries' ->
  allOutputs entries = Ok outs ->
  exists outs', allOutputs entries' = Ok outs' /\ Permutation outs outs'.
Proof.
  intros (m & Hp & HR). rewrite !allOutputs_eq. intros H.
  destruct (mapM entryOutputs entries) as [yss|] eqn:Ey; simpl in H;
    [|discriminate].
  inversion H; subst; clear H.
  destruct (mapM_PermUpTo entryOutputs entryOutputs sameEntry
              (fun ys zs => Permutation ys zs)
              entryOutputs_sameEntry entries m entries' yss Hp HR Ey)
    as (zss & yss' & Hpz & Hq & ->).
  simpl. eexists. split; [reflexivity|].
  rewrite (concat_Permutation _ _ Hpz).
  now apply concat_Forall2_Permutation.
Qed.

(** An asset does not depend on the order in which its initial-state
    map and its record lists are visited. *)
Lemma buildAsset_sameDefinition (args args' : vmargs.BuildGenesisArgs)
  (assetAlias : string) (def def' : vmargs.AssetDefinition)
  (asset : internalavm.GenesisAsset) :
  Canonical marshalOutput ->
  vmargs.NetworkID args = vmargs.NetworkID args' ->
  vmargs.Encoding args = vmargs.Encoding args' ->
  sameDefinition def def' ->
  buildAsset args assetAlias def = Ok asset ->
  buildAsset args' assetAlias def' = Ok asset.
Proof.
  intros Hcan Hnet Henc (Hname & Hsym & Hden & Hmemo & Hstates).
  pose proof (PermUpTo_length _ _ _ Hstates) as Hlen.
  unfold buildAsset.
  rewrite <- Hnet, <- Henc, <- Hname, <- Hsym, <- Hden, <- Hmemo, <- Hlen.
  destruct (formatting_Decode _ _) as [memo|]; simpl; [|discriminate].
  destruct (0 <? length (vmargs.InitialState def))%nat; [|auto].
  fold (allOutputs (vmargs.InitialState def)).
  fold (allOutputs (vmargs.InitialState def')).
  destruct (allOutputs (vmargs.InitialState def)) as [outs|] eqn:Eo; simpl;
    [|discriminate].
  destruct (allOutputs_PermUpTo _ _ _ Hstates Eo) as (outs' & -> & Hp).
  simpl. unfold InitialState_Sort. simpl.
  now rewrite (sort_by_order_independent marshalOutput outs outs' Hcan Hp).
Qed.

(** The genesis does not depend on the order in which the request is
    visited. *)
Lemma assembleGenesis_sameRequest (args args' : vmargs.BuildGenesisArgs)
  (g : internalavm.Genesis) :
  Canonical marshalOutput ->
  Canonical marshalAsset ->
  sameRequest args args' ->
  assembleGenesis args = Ok g ->
  assembleGenesis args' = Ok g.
Proof.
  intros Hout Hasset (Hnet & Henc & m & Hp & HR).
  rewrite !assembleGenesis_eq. intros H.
  destruct (mapM _ (vmargs.GenesisData args)) as [txs|] eqn:Et; simpl in H;
    [|discriminate].
  inversion H; subst; clear H.
  assert (forall (x x' : string * vmargs.AssetDefinition) asset,
             sameAsset x x' ->
             buildAsset args (fst x) (snd x) = Ok asset ->
             exists asset', buildAsset args' (fst x') (snd x') = Ok asset' /\
                            asset = asset') as Hf.
  { intros [a d] [a' d'] asset [Ha Hd] Hb. cbn [fst snd] in *. subst a'.
    exists asset. split; [|reflexivity].
    now apply (buildAsset_sameDefinition args args' a d d'). }
  destruct (mapM_PermUpTo _ _ sameAsset eq Hf _ _ _ _ Hp HR Et)
    as (zs & txs' & Hpz & Hq & ->).
  apply Forall2_eq in Hq. subst txs'. simpl.
  unfold Genesis_Sort. simpl.
  now rewrite (sort_by_order_independent marshalAsset txs zs Hasset Hpz).
Qed.

(** C1: the reply of a successful [BuildGenesis] is a function of the
    logical content of the request: a second call on the same request
    yields the same reply, whatever the reply held before, and so does a
    call on the request with the [genesisData] map, any [initialState]
    map or any record list visited in another order. *)
Theorem BuildGenesis_is_order_independent (args args' : vmargs.BuildGenesisArgs)
  (reply reply' out : vmargs.BuildGenesisReply) :
  Canonical marshalOutput ->
  Canonical marshalAsset ->
  sameRequest args args' ->
  BuildGenesis args reply = (out, None) ->
  BuildGenesis args reply' = (out, None) /\
  BuildGenesis args' reply' = (out, None).
Proof.
  intros Hout Hasset Hsame H.
  assert (forall a, sameRequest args a -> BuildGenesis a reply' = (out, None))
    as Hany.
  { intros a Ha.
    pose proof Ha as (_ & Henc & _).
    unfold BuildGenesis in *.
    destruct (wrappers.Errored _) eqn:Er.
    - unfold wrappers.Errored in Er.
      destruct (wrappers.ErrsErr _); [discriminate H | discriminate Er].
    - destruct (assembleGenesis args) as [g|] eqn:Eg; [|discriminate].
      rewrite (assembleGenesis_sameRequest args a g Hout Hasset Ha Eg).
      rewrite <- Henc.
      destruct (manager_Marshal codecVersion g) as [b|]; [|discriminate].
      destruct (formatting_Encode (vmargs.Encoding args) b) as [text [e|]];
        [discriminate|].
      simpl in *. exact H. }
  split; [apply Hany, sameRequest_refl | apply Hany, Hsame].
Qed.

End Order.

Lemma Sample_sameRequest : sameRequest Sample.twoAssets Sample.twoAssets'.
Proof.
  split; [reflexivity|]. split; [reflexivity|].
  exists [("beta", Sample.mixedDef); ("alpha", Sample.fixedDef)].
  split; [apply perm_swap|].
  constructor; [|constructor; [|constructor]];
    (split; [reflexivity|]); repeat (split; [reflexivity|]).
  - exists [("fixedCap", [Sample.holder Sample.addrA 5]);
            ("variableCap",
             [Sample.minters [Sample.addrB; Sample.addrA; Sample.addrC];
              Sample.minters [Sample.addrC]])].
    split; [apply perm_swap|].
    constructor; [|constructor; [|constructor]]; (split; [reflexivity|]).
    + reflexivity.
    + apply perm_swap.
  - exists (vmargs.InitialState Sample.fixedDef).
    split; [reflexivity|].
    constructor; [|constructor]. split; [reflexivity|].
    apply (Permutation_cons_app [_] [_]). apply perm_swap.
Qed.

Lemma BuildGenesis_is_order_independent_witness :
  Canonical (@marshalOutput Ref.collaborators) /\
  Canonical (@marshalAsset Ref.collaborators) /\
  sameRequest Sample.twoAssets Sample.twoAssets' /\
  exists out,
    @BuildGenesis Ref.collaborators Sample.twoAssets Sample.reply0
    = (out, None) /\
    @BuildGenesis Ref.collaborators Sample.twoAssets
      {| vmargs.Bytes := ""; vmargs.ReplyEncoding := formatting.Hex |}
    = (out, None) /\
    @BuildGenesis Ref.collaborators Sample.twoAssets'
      {| vmargs.Bytes := ""; vmargs.ReplyEncoding := formatting.Hex |}
    = (out, None).
Proof.
  split; [exact Ref_marshalOutput_Canonical|].
  split; [exact Ref_marshalAsset_Canonical|].
  split; [exact Sample_sameRequest|].
  destruct (@BuildGenesis Ref.collaborators Sample.twoAssets Sample.reply0)
    as [out [e|]] eqn:E; [vm_compute in E; discriminate|].
  exists out. split; [reflexivity|].
  exact (@BuildGenesis_is_order_independent Ref.collaborators
           Sample.twoAssets Sample.twoAssets' Sample.reply0
           {| vmargs.Bytes := ""; vmargs.ReplyEncoding := formatting.Hex |}
           out Ref_marshalOutput_Canonical Ref_marshalAsset_Canonical
           Sample_sameRequest E).
Defined.

(** The two orders of the sample request give the same text. *)
Example two_orders_same_bytes :
  @BuildGenesis Ref.collaborators Sample.twoAssets Sample.reply0 =
  @BuildGenesis Ref.collaborators Sample.twoAssets' Sample.reply0.
Proof. vm_compute. reflexivity. Qed.

(** * Further properties of the function *)

(** ** Type registration and the shape of a success *)

Lemma mapM_Err_source {A B} (f : A -> result B) (l : list A) (e : error) :
  mapM f l = Err e -> exists x, In x l /\ f x = Err e.
Proof.
  induction l as [|y l IH]; simpl; [discriminate|].
  destruct (f y) as [z|e'] eqn:Ey.
  - destruct (mapM f l) as [zs|e''] eqn:El; [discriminate|].
    intros H; inversion H; subst.
    destruct (IH eq_refl) as (x & Hin & Hx). eauto.
  - intros H; inversion H; subst. eauto.
Qed.

Lemma Errs_Add_first (es : list (option error)) :
  Exists (fun r => r <> None) es ->
  exists e,
    In (Some e) es /\
    wrappers.ErrsErr (wrappers.Add {| wrappers.ErrsErr := None |} es) = Some e.
Proof.
  unfold wrappers.Add; simpl.
  induction es as [|r es IH]; intros H; [inversion H|].
  simpl. destruct r as [e|].
  - exists e. split; [now left | reflexivity].
  - inversion H as [? ? Hr|? ? Hes]; subst; [contradiction|].
    destruct (IH Hes) as (e & Hin & He). exists e. split; [now right | exact He].
Qed.

Lemma Errs_Add_In (es : list (option error)) (e : error) :
  wrappers.ErrsErr (wrappers.Add {| wrappers.ErrsErr := None |} es) = Some e ->
  In (Some e) es.
Proof.
  unfold wrappers.Add; simpl.
  induction es as [|r es IH]; simpl; [discriminate|].
  destruct r as [e'|]; intros H; [left; exact H | right; now apply IH].
Qed.

Lemma Errs_Add_clean (es : list (option error)) :
  wrappers.Errored (wrappers.Add {| wrappers.ErrsErr := None |} es) = false ->
  Forall (eq None) es.
Proof.
  unfold wrappers.Errored, wrappers.Add; simpl.
  induction es as [|r es IH]; simpl; intros H; [constructor|].
  destruct r as [e|]; [discriminate|].
  constructor; [reflexivity | now apply IH].
Qed.

Section Outcome.

Context {C : Collaborators}.

(** X1: when one of the type registrations fails, every call fails with
    one and the same registration error and leaves the reply as it was,
    whatever the request is: the request is not looked at. *)
Theorem failed_registration_fails_every_request :
  Exists (fun r => r <> None) registrations ->
  exists e,
    In (Some e) registrations /\
    forall args reply, BuildGenesis args reply = (reply, Some e).
Proof.
  intros H. destruct (Errs_Add_first _ H) as (e & Hin & He).
  exists e. split; [exact Hin|].
  intros args reply. unfold BuildGenesis, wrappers.Errored.
  now rewrite He.
Qed.

(** X2: a call succeeds exactly when every type registration succeeded,
    the genesis assembles, the codec marshals it at version 0 and the
    text encoding accepts the bytes; the reply then holds that text and
    the encoding of the request, and nothing of what it held before. *)
Theorem BuildGenesis_succeeds_iff (args : vmargs.BuildGenesisArgs)
  (reply reply' : vmargs.BuildGenesisReply) :
  BuildGenesis args reply = (reply', None) <->
  Forall (eq None) registrations /\
  exists g b text,
    assembleGenesis args = Ok g /\
    manager_Marshal 0 g = Ok b /\
    formatting_Encode (vmargs.Encoding args) b = (text, None) /\
    reply' = {| vmargs.Bytes := text;
                vmargs.ReplyEncoding := vmargs.Encoding args |}.
Proof.
  split.
  - intros H. split.
    + apply Errs_Add_clean. unfold BuildGenesis in H.
      destruct (wrappers.Errored _) eqn:Er; [|reflexivity].
      unfold wrappers.Errored in Er.
      destruct (wrappers.ErrsErr _); [discriminate H | discriminate Er].
    + exact (BuildGenesis_Ok_inv args reply reply' H).
  - intros (Hreg & g & b & text & Hg & Hb & He & ->).
    exact (BuildGenesis_Ok args reply g b text Hreg Hg Hb He).
Qed.

Lemma resolveAddress_Err_wrapped (msg address : string) (e : error) :
  resolveAddress msg address = Err e -> exists inner, e = Wrap msg inner.
Proof.
  unfold resolveAddress. intros H.
  destruct (formatting_ParseBech32 address) as [[hrp b]|inner]; simpl in H.
  - destruct (ids.ToShortID b) as [|inner]; simpl in H; [discriminate|].
    inversion H. eauto.
  - inversion H. eauto.
Qed.

(** The errors of the assembly: the sentinel, or a wrapped error. *)
Lemma assembleGenesis_Err_forms (args : vmargs.BuildGenesisArgs) (e : error) :
  assembleGenesis args = Err e ->
  e = errUnknownAssetType \/
  exists msg inner, In msg wrapMessages /\ e = Wrap msg inner.
Proof.
  assert (forall msg inner, In msg wrapMessages ->
            Wrap msg inner = errUnknownAssetType \/
            exists msg' inner', In msg' wrapMessages /\
                                Wrap msg inner = Wrap msg' inner') as Hw
    by (intros msg inner Hm; right; eauto).
  rewrite assembleGenesis_eq. intros H.
  destruct (mapM _ (vmargs.GenesisData args)) as [|e'] eqn:Et; simpl in H;
    [discriminate|].
  inversion H; subst; clear H.
  destruct (mapM_Err_source _ _ _ Et) as ([a d] & _ & Hb). simpl in Hb.
  unfold buildAsset in Hb.
  destruct (formatting_Decode _ _) as [memo|inner]; simpl in Hb;
    [|inversion Hb; apply Hw; simpl; auto].
  destruct (0 <? length (vmargs.InitialState d))%nat;
    [|simpl in Hb; discriminate].
  fold (allOutputs (vmargs.InitialState d)) in Hb.
  rewrite allOutputs_eq in Hb.
  destruct (mapM entryOutputs (vmargs.InitialState d)) as [|e'] eqn:Ee;
    simpl in Hb; [discriminate|].
  inversion Hb; subst; clear Hb.
  destruct (mapM_Err_source _ _ _ Ee) as ([t r] & _ & Hf).
  rewrite entryOutputs_eq in Hf.
  destruct (String.eqb t "fixedCap").
  - destruct (mapM_Err_source _ _ _ Hf) as (state & _ & Hs).
    unfold fixedCapOutput in Hs.
    destruct (json_Marshal state) as [b|]; simpl in Hs;
      [|inversion Hs; apply Hw; simpl; auto].
    destruct (json_Unmarshal_Holder b) as [h|]; simpl in Hs;
      [|inversion Hs; apply Hw; simpl; auto].
    destruct (resolveAddress _ (vmargs.Address h)) eqn:Ea; simpl in Hs;
      [discriminate|].
    inversion Hs; subst.
    destruct (resolveAddress_Err_wrapped _ _ _ Ea) as (inner & ->).
    apply Hw; simpl; auto.
  - destruct (String.eqb t "variableCap");
      [|inversion Hf; now left].
    destruct (mapM_Err_source _ _ _ Hf) as (state & _ & Hs).
    unfold variableCapOutput in Hs.
    destruct (json_Marshal state) as [b|]; simpl in Hs;
      [|inversion Hs; apply Hw; simpl; auto].
    destruct (json_Unmarshal_Owners b) as [o|]; simpl in Hs;
      [|inversion Hs; apply Hw; simpl; auto 10].
    rewrite forRange_addMinter in Hs.
    destruct (mapM _ (vmargs.Minters o)) eqn:Ea; simpl in Hs; [discriminate|].
    inversion Hs; subst.
    destruct (mapM_Err_source _ _ _ Ea) as (address & _ & Hr).
    destruct (resolveAddress_Err_wrapped _ _ _ Hr) as (inner & ->).
    apply Hw; simpl; auto 10.
Qed.

(** X3: an error returned by the function is a registration error, the
    unknown-asset-type sentinel, an error of a collaborator wrapped
    under one of the function's seven messages, or, for the text
    encoding alone, a message that formats the error without wrapping
    it; no error of a collaborator is returned bare once the types are
    registered. *)
Theorem BuildGenesis_error_forms (args : vmargs.BuildGenesisArgs)
  (reply reply' : vmargs.BuildGenesisReply) (e : error) :
  BuildGenesis args reply = (reply', Some e) ->
  In (Some e) registrations \/
  e = errUnknownAssetType \/
  (exists msg inner, In msg wrapMessages /\ e = Wrap msg inner) \/
  (exists inner, e = Fmt "couldn't encode genesis as string: %s" inner).
Proof.
  unfold BuildGenesis.
  destruct (wrappers.Errored _) eqn:Er.
  - intros H. left. injection H as _ He.
    exact (Errs_Add_In _ _ He).
  - destruct (assembleGenesis args) as [g|e'] eqn:Eg.
    + destruct (manager_Marshal codecVersion g) as [b|inner].
      * destruct (formatting_Encode _ b) as [text [inner|]];
          intros H; inversion H; subst.
        right; right; right. eauto.
      * intros H; inversion H; subst.
        right; right; left. exists "problem marshaling genesis: %w", inner.
        split; [simpl; auto 10 | reflexivity].
    + intros H; inversion H; subst.
      destruct (assembleGenesis_Err_forms args e Eg) as [->|Hw]; auto.
Qed.

End Outcome.

Lemma failed_registration_fails_every_request_witness :
  Exists (fun r => r <> None) (@registrations More.brokenRegistration) /\
  exists e,
    In (Some e) (@registrations More.brokenRegistration) /\
    forall args reply,
      @BuildGenesis More.brokenRegistration args reply = (reply, Some e).
Proof.
  assert (Exists (fun r => r <> None) (@registrations More.brokenRegistration))
    as H by (simpl; do 2 apply Exists_cons_tl; apply Exists_cons_hd;
             discriminate).
  split; [exact H|].
  exact (@failed_registration_fails_every_request More.brokenRegistration H).
Defined.

(** The registration error kept is the first one. *)
Example first_registration_error_is_returned :
  @BuildGenesis More.brokenRegistration Sample.twoAssets Sample.reply0 =
  (Sample.reply0, Some (New "duplicate type registration")).
Proof. vm_compute. reflexivity. Qed.

Lemma BuildGenesis_error_forms_witness :
  @BuildGenesis Ref.collaborators More.badMinterRequest Sample.reply0 =
  (Sample.reply0,
   Some (Wrap "problem parsing minters address: %w" (New "checksum failed")))
  /\
  (In (Some (Wrap "problem parsing minters address: %w"
               (New "checksum failed")))
     (@registrations Ref.collaborators) \/
   Wrap "problem parsing minters address: %w" (New "checksum failed")
   = errUnknownAssetType \/
   (exists msg inner,
      In msg wrapMessages /\
      Wrap "problem parsing minters address: %w" (New "checksum failed")
      = Wrap msg inner) \/
   (exists inner,
      Wrap "problem parsing minters address: %w" (New "checksum failed")
      = Fmt "couldn't encode genesis as string: %s" inner)).
Proof.
  assert (@BuildGenesis Ref.collaborators More.badMinterRequest Sample.reply0
          = (Sample.reply0,
             Some (Wrap "problem parsing minters address: %w"
                     (New "checksum failed")))) as H
    by (vm_compute; reflexivity).
  split; [exact H|].
  exact (@BuildGenesis_error_forms Ref.collaborators More.badMinterRequest
           Sample.reply0 Sample.reply0 _ H).
Defined.

(** ** The transactions of the genesis *)

Section Transactions.

Context {C : Collaborators}.

Lemma buildAsset_header (args : vmargs.BuildGenesisArgs) (assetAlias : string)
  (def : vmargs.AssetDefinition) (asset : internalavm.GenesisAsset) :
  buildAsset args assetAlias def = Ok asset ->
  let tx := internalavm.EmbeddedCreateAssetTx asset in
  let base := internalavm.AvaxBaseTx (internalavm.EmbeddedBaseTx tx) in
  internalavm.Alias asset = assetAlias /\
  internalavm.Name tx = vmargs.Name def /\
  internalavm.Symbol tx = vmargs.Symbol def /\
  avax.NetworkID base = vmargs.NetworkID args mod 2 ^ 32 /\
  avax.BlockchainID base = ids_Empty.
Proof.
  unfold buildAsset. intros H.
  destruct (formatting_Decode _ _) as [memo|]; simpl in H; [|discriminate].
  destruct (0 <? length (vmargs.InitialState def))%nat.
  - destruct (forRange addInitialStates [] (vmargs.InitialState def));
      simpl in H; [|discriminate].
    inversion H; subst; simpl. repeat split; reflexivity.
  - simpl in H. inversion H; subst; simpl. repeat split; reflexivity.
Qed.

(** X4: the genesis holds exactly one transaction for every entry of
    [genesisData]: the aliases of its transactions are the keys of the
    request, each as often as it is visited, in some order. *)
Theorem one_transaction_per_asset (args : vmargs.BuildGenesisArgs)
  (g : internalavm.Genesis) :
  assembleGenesis args = Ok g ->
  Permutation (map internalavm.Alias (internalavm.Txs g))
    (map fst (vmargs.GenesisData args)) /\
  length (internalavm.Txs g) = length (vmargs.GenesisData args).
Proof.
  rewrite assembleGenesis_eq. intros H.
  destruct (mapM _ (vmargs.GenesisData args)) as [txs|] eqn:Et; simpl in H;
    [|discriminate].
  inversion H; subst; clear H. simpl.
  apply mapM_Forall2 in Et.
  assert (map internalavm.Alias txs = map fst (vmargs.GenesisData args)) as E.
  { induction Et as [|x y l l' Hxy _ IH]; simpl; [reflexivity|].
    destruct (buildAsset_header _ _ _ _ Hxy) as (-> & _). now rewrite IH. }
  split.
  - rewrite <- E. apply Permutation_map, sort_by_Permutation.
  - rewrite (Permutation_length (sort_by_Permutation _ txs)).
    now apply Forall2_length in Et.
Qed.

(** X5: every transaction of the genesis is the transaction of an entry
    of the request, with the alias of the entry, the name and the symbol
    of its definition unchanged, the network ID of the request reduced
    modulo 2^32 and the empty blockchain ID. *)
Theorem transaction_header_fields (args : vmargs.BuildGenesisArgs)
  (g : internalavm.Genesis) (asset : internalavm.GenesisAsset) :
  assembleGenesis args = Ok g ->
  In asset (internalavm.Txs g) ->
  exists assetAlias def,
    In (assetAlias, def) (vmargs.GenesisData args) /\
    internalavm.Alias asset = assetAlias /\
    internalavm.Name (internalavm.EmbeddedCreateAssetTx asset)
    = vmargs.Name def /\
    internalavm.Symbol (internalavm.EmbeddedCreateAssetTx asset)
    = vmargs.Symbol def /\
    avax.NetworkID
      (internalavm.AvaxBaseTx
         (internalavm.EmbeddedBaseTx (internalavm.EmbeddedCreateAssetTx asset)))
    = vmargs.NetworkID args mod 2 ^ 32 /\
    avax.BlockchainID
      (internalavm.AvaxBaseTx
         (internalavm.EmbeddedBaseTx (internalavm.EmbeddedCreateAssetTx asset)))
    = ids_Empty.
Proof.
  intros Hg Hin.
  destruct (assembleGenesis_In_result _ _ _ Hg Hin) as (a & d & Hd & Hb).
  exists a, d. split; [exact Hd|].
  exact (buildAsset_header _ _ _ _ Hb).
Qed.

Lemma entryOutputs_length (entry : string * list JSON)
  (outs : list internalavm.Output) :
  entryOutputs entry = Ok outs -> length outs = length (snd entry).
Proof.
  destruct entry as [t r]. intros H.
  destruct (entryOutputs_Ok_inv _ _ _ H) as [[_ HR]|[_ HR]];
    apply Forall2_length in HR; simpl; congruence.
Qed.

Lemma allOutputs_length (entries : list (string * list JSON))
  (outs : list internalavm.Output) :
  allOutputs entries = Ok outs -> length outs = recordCount entries.
Proof.
  rewrite allOutputs_eq. intros H.
  destruct (mapM entryOutputs entries) as [yss|] eqn:Ey; simpl in H;
    [|discriminate].
  inversion H; subst; clear H.
  apply mapM_Forall2 in Ey. unfold recordCount.
  induction Ey as [|x ys l yss Hx _ IH]; simpl; [reflexivity|].
  rewrite length_app, IH. f_equal. now apply entryOutputs_length.
Qed.

(** X6: an asset of the genesis has exactly as many outputs as its
    definition has records, over all the entries of its initial-state
    map: no record is dropped or merged and no output is invented. *)
Theorem one_output_per_record (args : vmargs.BuildGenesisArgs)
  (assetAlias : string) (def : vmargs.AssetDefinition)
  (asset : internalavm.GenesisAsset) :
  SortReorders C ->
  buildAsset args assetAlias def = Ok asset ->
  outputCount asset = recordCount (vmargs.InitialState def).
Proof.
  intros Hsort Hb. unfold outputCount.
  destruct (buildAsset_states _ _ _ _ Hsort Hb)
    as [[-> ->]|(outs & Hall & ->)]; simpl; [reflexivity|].
  rewrite (Permutation_length (sort_by_Permutation _ outs)).
  rewrite (allOutputs_length _ _ Hall). lia.
Qed.

(** X7: an initial-state map that is not empty but has no record, under
    known tags only, gives an asset that builds as soon as its memo
    decodes and carries one group, with [FxID] 0 and without outputs;
    only an empty map gives no group. *)
Theorem declared_kinds_without_records (args : vmargs.BuildGenesisArgs)
  (assetAlias : string) (def : vmargs.AssetDefinition) (memo : bytes) :
  SortReorders C ->
  vmargs.InitialState def <> [] ->
  (forall entry, In entry (vmargs.InitialState def) ->
                 knownTag (fst entry) /\ snd entry = []) ->
  formatting_Decode (vmargs.Encoding args) (vmargs.Memo def) = Ok memo ->
  exists asset,
    buildAsset args assetAlias def = Ok asset /\
    internalavm.assetStates asset =
    [{| internalavm.FxID := 0; internalavm.Outs := [] |}].
Proof.
  intros Hsort Hne Hentries Hm.
  assert (forall entry, In entry (vmargs.InitialState def) ->
                        exists outs, entryOutputs entry = Ok outs) as Hok.
  { intros [t r] Hin. destruct (Hentries _ Hin) as [Hk Hr].
    simpl in Hk, Hr. subst r. rewrite entryOutputs_eq.
    destruct Hk as [->| ->]; simpl; eauto. }
  destruct (mapM_succeeds entryOutputs _ Hok) as (yss & Hy).
  assert (allOutputs (vmargs.InitialState def) = Ok (concat yss)) as Hall
    by (rewrite allOutputs_eq, Hy; reflexivity).
  destruct (buildAsset_succeeds args assetAlias def memo Hm
              (or_intror (ex_intro _ _ Hall))) as (asset & Hb).
  exists asset. split; [exact Hb|].
  destruct (buildAsset_states _ _ _ _ Hsort Hb)
    as [[E _]|(outs & Hall' & ->)]; [contradiction|].
  pose proof (allOutputs_length _ _ Hall') as Hlen.
  assert (recordCount (vmargs.InitialState def) = 0%nat) as Hzero.
  { unfold recordCount. clear - Hentries.
    induction (vmargs.InitialState def) as [|x l IH]; simpl; [reflexivity|].
    rewrite (proj2 (Hentries x (or_introl eq_refl))). simpl.
    apply IH. intros entry Hin. apply Hentries. now right. }
  rewrite Hzero in Hlen. apply length_zero_iff_nil in Hlen. now subst outs.
Qed.

End Transactions.

(** ** Addresses, records and the first fault *)

Section Faults.

Context {C : Collaborators}.

(** X8: the prefix that the address text codec hands back is dropped:
    two holder records with the same amount whose addresses decode to
    the same bytes, under whatever prefixes, give the same result, be it
    the same output or the same error. *)
Theorem address_prefix_is_ignored (state state' : JSON)
  (h h' : vmargs.Holder) (hrp hrp' : string) (b : bytes) :
  asHolder state h ->
  asHolder state' h' ->
  vmargs.Amount h = vmargs.Amount h' ->
  formatting_ParseBech32 (vmargs.Address h) = Ok (hrp, b) ->
  formatting_ParseBech32 (vmargs.Address h') = Ok (hrp', b) ->
  fixedCapOutput state = fixedCapOutput state'.
Proof.
  intros (j & Hj & Hh) (j' & Hj' & Hh') Ha Hp Hp'.
  unfold fixedCapOutput, resolveAddress.
  rewrite Hj, Hj'; simpl. rewrite Hh, Hh'; simpl.
  rewrite Hp, Hp', Ha; simpl. reflexivity.
Qed.

(** The assets visited before the first fault, and its own memo. *)
Lemma first_faulty_asset_is_returned (args : vmargs.BuildGenesisArgs)
  (reply : vmargs.BuildGenesisReply)
  (before after : list (string * vmargs.AssetDefinition))
  (assetAlias : string) (def : vmargs.AssetDefinition) (e : error) :
  Forall (eq None) registrations ->
  vmargs.GenesisData args = before ++ (assetAlias, def) :: after ->
  (forall x, In x before ->
             exists asset, buildAsset args (fst x) (snd x) = Ok asset) ->
  buildAsset args assetAlias def = Err e ->
  BuildGenesis args reply = (reply, Some e).
Proof.
  intros Hreg Hdata Hbefore Hasset.
  assert (assembleGenesis args = Err e) as Hg.
  { rewrite assembleGenesis_eq, Hdata.
    now rewrite (mapM_first_error
                   (fun x => buildAsset args (fst x) (snd x))
                   before after (assetAlias, def) e Hbefore Hasset). }
  destruct (BuildGenesis_assembly_fails args reply e Hg) as (e' & -> & Heq).
  now rewrite (Heq Hreg).
Qed.

(** X9: when the types are registered and the assets visited before it
    build, an asset whose memo does not decode makes the call return the
    decoder's error wrapped under the memo message, with the reply as it
    was; its initial state and the assets behind it are not looked at. *)
Theorem undecodable_memo_is_reported (args : vmargs.BuildGenesisArgs)
  (reply : vmargs.BuildGenesisReply)
  (before after : list (string * vmargs.AssetDefinition))
  (assetAlias : string) (def : vmargs.AssetDefinition) (inner : error) :
  Forall (eq None) registrations ->
  vmargs.GenesisData args = before ++ (assetAlias, def) :: after ->
  (forall x, In x before ->
             exists asset, buildAsset args (fst x) (snd x) = Ok asset) ->
  formatting_Decode (vmargs.Encoding args) (vmargs.Memo def) = Err inner ->
  BuildGenesis args reply =
  (reply,
   Some (Wrap "problem formatting asset definition memo due to: %w" inner)).
Proof.
  intros Hreg Hdata Hbefore Hm.
  apply (first_faulty_asset_is_returned args reply before after assetAlias def);
    try assumption.
  now apply buildAsset_memo_fails.
Qed.

(** X10: a variable-cap record that cannot be reinterpreted as owners,
    or one of whose minters has an address that does not resolve, makes
    the call return an error and leave the reply as it was; when the
    record reads as owners and is the first fault met, the error is a
    resolver error wrapped under the minters message. *)
Theorem bad_variableCap_record_fails_the_build
  (args : vmargs.BuildGenesisArgs) (reply : vmargs.BuildGenesisReply)
  (before after : list (string * vmargs.AssetDefinition))
  (assetAlias : string) (def : vmargs.AssetDefinition)
  (entriesBefore entriesAfter : list (string * list JSON))
  (recordsBefore recordsAfter : list JSON) (state : JSON) :
  vmargs.GenesisData args = before ++ (assetAlias, def) :: after ->
  vmargs.InitialState def =
  entriesBefore
    ++ ("variableCap", recordsBefore ++ state :: recordsAfter)
    :: entriesAfter ->
  (forall o, ~ asOwners state o) \/
  (exists o address,
     asOwners state o /\ In address (vmargs.Minters o) /\
     badAddress address) ->
  (exists e, BuildGenesis args reply = (reply, Some e)) /\
  (Forall (eq None) registrations ->
   (forall x, In x before ->
              exists asset, buildAsset args (fst x) (snd x) = Ok asset) ->
   (exists memo,
      formatting_Decode (vmargs.Encoding args) (vmargs.Memo def) = Ok memo) ->
   (forall x, In x entriesBefore -> exists outs, entryOutputs x = Ok outs) ->
   (forall x, In x recordsBefore -> exists out, mintOf x out) ->
   (exists o, asOwners state o) ->
   exists inner,
     BuildGenesis args reply =
     (reply, Some (Wrap "problem parsing minters address: %w" inner))).
Proof.
  intros Hdata Hentries Hbad.
  assert (exists e, variableCapOutput state = Err e /\
                    ((exists o, asOwners state o) ->
                     exists inner,
                       e = Wrap "problem parsing minters address: %w" inner))
    as (e & Hf & Hform).
  { destruct (variableCapOutput state) as [out|e] eqn:Ef.
    - exfalso. apply variableCapOutput_Ok in Ef
        as (o & addrs & sorted & Ho & Hr & _).
      destruct Hbad as [Hno|(o' & address & Ho' & Hin & Hb)];
        [exact (Hno o Ho)|].
      assert (o' = o) as ->
        by (destruct Ho as (j & Hj & Hu), Ho' as (j' & Hj' & Hu'); congruence).
      clear - Hr Hin Hb.
      induction Hr as [|a addr l l' Ha _ IH]; simpl in Hin; [contradiction|].
      destruct Hin as [->|Hin]; [|auto].
      exact (badAddress_not_resolves _ _ Hb Ha).
    - exists e. split; [reflexivity|].
      intros (o & j & Hj & Hu). unfold variableCapOutput in Ef.
      rewrite Hj in Ef; simpl in Ef. rewrite Hu in Ef; simpl in Ef.
      rewrite forRange_addMinter in Ef.
      destruct (mapM _ (vmargs.Minters o)) eqn:Ea; simpl in Ef;
        [discriminate|].
      inversion Ef; subst.
      destruct (mapM_Err_source _ _ _ Ea) as (address & _ & Hr).
      exact (resolveAddress_Err_wrapped _ _ _ Hr). }
  split.
  - destruct (mapM_fails variableCapOutput
                (recordsBefore ++ state :: recordsAfter) state _
                (in_elt _ _ _) Hf) as (e' & He').
    apply (entry_fails_build_fails args reply assetAlias def
             ("variableCap", recordsBefore ++ state :: recordsAfter) e').
    + rewrite Hdata. apply in_elt.
    + rewrite Hentries. apply in_elt.
    + now rewrite entryOutputs_eq.
  - intros Hreg Hbefore (memo & Hmemo) Hebefore Hrbefore Ho.
    destruct (Hform Ho) as (inner & ->). exists inner.
    apply (first_fault_is_returned args reply before after assetAlias def
             memo entriesBefore entriesAfter
             ("variableCap", recordsBefore ++ state :: recordsAfter));
      try assumption.
    rewrite entryOutputs_eq. simpl.
    apply mapM_first_error; [|exact Hf].
    intros x Hx. destruct (Hrbefore x Hx) as (out & Hout).
    exists out. now apply variableCapOutput_builds.
Qed.

(** An asset is built from the encoding and the network ID of the
    request and from its own definition, and from nothing else. *)
Lemma buildAsset_ext (args args' : vmargs.BuildGenesisArgs)
  (assetAlias : string) (def : vmargs.AssetDefinition) :
  vmargs.NetworkID args' = vmargs.NetworkID args ->
  vmargs.Encoding args' = vmargs.Encoding args ->
  buildAsset args' assetAlias def = buildAsset args assetAlias def.
Proof. unfold buildAsset. now intros -> ->. Qed.

(** X11: the assets of a request are built independently of each other:
    a request whose entries are among the entries of a request that
    assembles, for the same network and encoding, assembles too, and
    each of its transactions is a transaction of the larger genesis. *)
Theorem sub_request_assembles (args args' : vmargs.BuildGenesisArgs)
  (g : internalavm.Genesis) :
  vmargs.NetworkID args' = vmargs.NetworkID args ->
  vmargs.Encoding args' = vmargs.Encoding args ->
  incl (vmargs.GenesisData args') (vmargs.GenesisData args) ->
  assembleGenesis args = Ok g ->
  exists g',
    assembleGenesis args' = Ok g' /\
    incl (internalavm.Txs g') (internalavm.Txs g).
Proof.
  intros Hnet Henc Hincl Hg.
  assert (forall x, In x (vmargs.GenesisData args') ->
            exists asset,
              buildAsset args' (fst x) (snd x) = Ok asset /\
              In asset (internalavm.Txs g)) as Hone.
  { intros [a d] Hin. apply Hincl in Hin.
    destruct (assembleGenesis_In _ _ _ _ Hg Hin) as (asset & Ha & Hb).
    exists asset. simpl. rewrite (buildAsset_ext args args') by assumption.
    auto. }
  destruct (mapM_succeeds
              (fun x => buildAsset args' (fst x) (snd x))
              (vmargs.GenesisData args')) as (txs & Htxs).
  { intros x Hx. destruct (Hone x Hx) as (asset & Hb & _). eauto. }
  exists (Genesis_Sort {| internalavm.Txs := txs |}).
  split; [rewrite assembleGenesis_eq, Htxs; reflexivity|].
  intros asset Hin. simpl in Hin.
  apply (Permutation_in asset (sort_by_Permutation _ txs)) in Hin.
  destruct (mapM_In_result _ _ _ _ Htxs Hin) as (x & Hx & Hb).
  destruct (Hone x Hx) as (asset' & Hb' & Ha'). congruence.
Qed.

(** X12: the order in which a variable-cap record lists its minters
    does not matter: two records that read as owners with the same
    minters in another order give the same MintOutput. *)
Theorem minters_order_is_irrelevant (state state' : JSON)
  (o o' : vmargs.Owners) (out : internalavm.Output) :
  asOwners state o ->
  asOwners state' o' ->
  Permutation (vmargs.Minters o) (vmargs.Minters o') ->
  variableCapOutput state = Ok out ->
  variableCapOutput state' = Ok out.
Proof.
  intros Ho Ho' Hp Hout.
  apply variableCapOutput_Ok in Hout
    as (o1 & addrs & sorted & Ho1 & Hr & Hps & Hs & ->).
  assert (o1 = o) as ->
    by (destruct Ho as (j & Hj & Hu), Ho1 as (j1 & Hj1 & Hu1); congruence).
  apply (mapM_resolveAddress "problem parsing minters address: %w") in Hr.
  destruct (mapM_Permutation _ _ _ _ Hp Hr) as (addrs' & Hr' & Hpa).
  apply mapM_resolveAddress in Hr'.
  apply variableCapOutput_builds.
  exists o', addrs', sorted. repeat split; try assumption.
  now rewrite Hps.
Qed.

End Faults.

(** ** The further properties on the sample requests *)

Lemma one_transaction_per_asset_witness :
  exists g,
    @assembleGenesis Ref.collaborators Sample.twoAssets = Ok g /\
    Permutation (map internalavm.Alias (internalavm.Txs g))
      (map fst (vmargs.GenesisData Sample.twoAssets)) /\
    length (internalavm.Txs g) = length (vmargs.GenesisData Sample.twoAssets).
Proof.
  destruct (@assembleGenesis Ref.collaborators Sample.twoAssets) as [g|e]
    eqn:E; [|vm_compute in E; discriminate].
  exists g. split; [reflexivity|].
  exact (@one_transaction_per_asset Ref.collaborators Sample.twoAssets g E).
Defined.

Lemma transaction_header_fields_witness :
  exists g asset,
    @assembleGenesis Ref.collaborators Sample.twoAssets = Ok g /\
    In asset (internalavm.Txs g) /\
    exists assetAlias def,
      In (assetAlias, def) (vmargs.GenesisData Sample.twoAssets) /\
      internalavm.Alias asset = assetAlias /\
      internalavm.Name (internalavm.EmbeddedCreateAssetTx asset)
      = vmargs.Name def /\
      internalavm.Symbol (internalavm.EmbeddedCreateAssetTx asset)
      = vmargs.Symbol def /\
      avax.NetworkID
        (internalavm.AvaxBaseTx
           (internalavm.EmbeddedBaseTx
              (internalavm.EmbeddedCreateAssetTx asset)))
      = vmargs.NetworkID Sample.twoAssets mod 2 ^ 32 /\
      avax.BlockchainID
        (internalavm.AvaxBaseTx
           (internalavm.EmbeddedBaseTx
              (internalavm.EmbeddedCreateAssetTx asset)))
      = @ids_Empty Ref.collaborators.
Proof.
  do 2 eexists.
  split; [lazy; reflexivity|].
  split; [left; reflexivity|].
  eapply (@transaction_header_fields Ref.collaborators Sample.twoAssets).
  - lazy; reflexivity.
  - left; reflexivity.
Defined.

Lemma one_output_per_record_witness :
  SortReorders Ref.collaborators /\
  exists asset,
    @buildAsset Ref.collaborators Sample.twoAssets "beta" Sample.mixedDef
    = Ok asset /\
    outputCount asset = 3%nat.
Proof.
  split; [exact Ref_SortReorders|].
  destruct (@buildAsset Ref.collaborators Sample.twoAssets "beta"
              Sample.mixedDef) as [asset|e] eqn:E;
    [|vm_compute in E; discriminate].
  exists asset. split; [reflexivity|].
  exact (@one_output_per_record Ref.collaborators Sample.twoAssets "beta"
           Sample.mixedDef asset Ref_SortReorders E).
Defined.

Lemma declared_kinds_without_records_witness :
  SortReorders Ref.collaborators /\
  vmargs.InitialState More.noRecordsDef <> [] /\
  (forall entry, In entry (vmargs.InitialState More.noRecordsDef) ->
                 knownTag (fst entry) /\ snd entry = []) /\
  @formatting_Decode Ref.collaborators formatting.Hex "0x" = Ok [] /\
  exists asset,
    @buildAsset Ref.collaborators Sample.twoAssets "hollow" More.noRecordsDef
    = Ok asset /\
    internalavm.assetStates asset =
    [{| internalavm.FxID := 0; internalavm.Outs := [] |}].
Proof.
  assert (forall entry, In entry (vmargs.InitialState More.noRecordsDef) ->
                        knownTag (fst entry) /\ snd entry = []) as H.
  { intros entry [<-|[<-|[]]]; simpl; split; try reflexivity;
      [now left | now right]. }
  split; [exact Ref_SortReorders|]. split; [discriminate|].
  split; [exact H|]. split; [reflexivity|].
  exact (@declared_kinds_without_records Ref.collaborators Sample.twoAssets
           "hollow" More.noRecordsDef [] Ref_SortReorders
           ltac:(discriminate) H eq_refl).
Defined.

Lemma address_prefix_is_ignored_witness :
  @asHolder Ref.collaborators (Sample.holder Sample.addrA 10)
    {| vmargs.Amount := 10; vmargs.Address := Sample.addrA |} /\
  @asHolder Ref.collaborators (Sample.holder More.addrAOther 10)
    {| vmargs.Amount := 10; vmargs.Address := More.addrAOther |} /\
  @formatting_ParseBech32 Ref.collaborators Sample.addrA
  = Ok ("local", Sample.idA) /\
  @formatting_ParseBech32 Ref.collaborators More.addrAOther
  = Ok ("other", Sample.idA) /\
  @fixedCapOutput Ref.collaborators (Sample.holder Sample.addrA 10) =
  @fixedCapOutput Ref.collaborators (Sample.holder More.addrAOther 10).
Proof.
  assert (@asHolder Ref.collaborators (Sample.holder Sample.addrA 10)
            {| vmargs.Amount := 10; vmargs.Address := Sample.addrA |})
    as H1 by (eexists; split; vm_compute; reflexivity).
  assert (@asHolder Ref.collaborators (Sample.holder More.addrAOther 10)
            {| vmargs.Amount := 10; vmargs.Address := More.addrAOther |})
    as H2 by (eexists; split; vm_compute; reflexivity).
  assert (@formatting_ParseBech32 Ref.collaborators Sample.addrA
          = Ok ("local", Sample.idA)) as P1 by (vm_compute; reflexivity).
  assert (@formatting_ParseBech32 Ref.collaborators More.addrAOther
          = Ok ("other", Sample.idA)) as P2 by (vm_compute; reflexivity).
  repeat (split; [assumption|]).
  exact (@address_prefix_is_ignored Ref.collaborators _ _ _ _ _ _ _
           H1 H2 eq_refl P1 P2).
Defined.

Lemma undecodable_memo_is_reported_witness :
  Forall (eq None) (@registrations Ref.collaborators) /\
  vmargs.GenesisData More.badMemoRequest =
  [("alpha", Sample.fixedDef)] ++ ("odd", Sample.unknownBadMemoDef) :: [] /\
  @formatting_Decode Ref.collaborators formatting.Hex "not hex"
  = Err (New "missing 0x prefix") /\
  @BuildGenesis Ref.collaborators More.badMemoRequest Sample.reply0 =
  (Sample.reply0,
   Some (Wrap "problem formatting asset definition memo due to: %w"
           (New "missing 0x prefix"))).
Proof.
  split; [exact Ref_registrations_clean|].
  split; [reflexivity|]. split; [reflexivity|].
  apply (@undecodable_memo_is_reported Ref.collaborators More.badMemoRequest
           Sample.reply0 [("alpha", Sample.fixedDef)] [] "odd"
           Sample.unknownBadMemoDef (New "missing 0x prefix")
           Ref_registrations_clean eq_refl).
  - intros x [<-|[]]. eexists. vm_compute. reflexivity.
  - reflexivity.
Defined.

Lemma bad_variableCap_record_fails_the_build_witness :
  vmargs.GenesisData More.badMinterRequest =
  [("alpha", Sample.fixedDef)] ++ ("minted", More.badMinterDef) :: [] /\
  vmargs.InitialState More.badMinterDef =
  [] ++ ("variableCap",
         [Sample.minters [Sample.addrA]]
           ++ Sample.minters [Sample.addrB; Sample.addrBadChecksum] :: [])
     :: [] /\
  (exists o address,
     @asOwners Ref.collaborators
       (Sample.minters [Sample.addrB; Sample.addrBadChecksum]) o /\
     In address (vmargs.Minters o) /\
     @badAddress Ref.collaborators address) /\
  exists inner,
    @BuildGenesis Ref.collaborators More.badMinterRequest Sample.reply0 =
    (Sample.reply0, Some (Wrap "problem parsing minters address: %w" inner)).
Proof.
  assert (@asOwners Ref.collaborators
            (Sample.minters [Sample.addrB; Sample.addrBadChecksum])
            {| vmargs.Minters := [Sample.addrB; Sample.addrBadChecksum] |})
    as Ho by (eexists; split; vm_compute; reflexivity).
  assert (exists o address,
             @asOwners Ref.collaborators
               (Sample.minters [Sample.addrB; Sample.addrBadChecksum]) o /\
             In address (vmargs.Minters o) /\
             @badAddress Ref.collaborators address) as Hbad.
  { eexists _, Sample.addrBadChecksum. split; [exact Ho|].
    split; [simpl; auto|]. left. eexists. vm_compute. reflexivity. }
  split; [reflexivity|]. split; [reflexivity|]. split; [exact Hbad|].
  apply (proj2 (@bad_variableCap_record_fails_the_build Ref.collaborators
                  More.badMinterRequest Sample.reply0
                  [("alpha", Sample.fixedDef)] [] "minted" More.badMinterDef
                  [] [] [Sample.minters [Sample.addrA]] []
                  (Sample.minters [Sample.addrB; Sample.addrBadChecksum])
                  eq_refl eq_refl (or_intror Hbad))
           Ref_registrations_clean).
  - intros x [<-|[]]. eexists. vm_compute. reflexivity.
  - eexists. vm_compute. reflexivity.
  - intros x [].
  - intros x [<-|[]]. eexists. apply variableCapOutput_Ok.
    vm_compute. reflexivity.
  - eexists. exact Ho.
Defined.

Lemma sub_request_assembles_witness :
  incl (vmargs.GenesisData More.betaOnly) (vmargs.GenesisData Sample.twoAssets)
  /\
  exists g,
    @assembleGenesis Ref.collaborators Sample.twoAssets = Ok g /\
    exists g',
      @assembleGenesis Ref.collaborators More.betaOnly = Ok g' /\
      incl (internalavm.Txs g') (internalavm.Txs g).
Proof.
  assert (incl (vmargs.GenesisData More.betaOnly)
            (vmargs.GenesisData Sample.twoAssets)) as Hincl
    by (intros x [<-|[]]; simpl; auto).
  split; [exact Hincl|].
  destruct (@assembleGenesis Ref.collaborators Sample.twoAssets) as [g|e]
    eqn:E; [|vm_compute in E; discriminate].
  exists g. split; [reflexivity|].
  exact (@sub_request_assembles Ref.collaborators Sample.twoAssets
           More.betaOnly g eq_refl eq_refl Hincl E).
Defined.

Lemma minters_order_is_irrelevant_witness :
  @asOwners Ref.collaborators
    (Sample.minters [Sample.addrB; Sample.addrA; Sample.addrC])
    {| vmargs.Minters := [Sample.addrB; Sample.addrA; Sample.addrC] |} /\
  @asOwners Ref.collaborators
    (Sample.minters [Sample.addrA; Sample.addrB; Sample.addrC])
    {| vmargs.Minters := [Sample.addrA; Sample.addrB; Sample.addrC] |} /\
  Permutation [Sample.addrB; Sample.addrA; Sample.addrC]
    [Sample.addrA; Sample.addrB; Sample.addrC] /\
  exists out,
    @variableCapOutput Ref.collaborators
      (Sample.minters [Sample.addrB; Sample.addrA; Sample.addrC]) = Ok out /\
    @variableCapOutput Ref.collaborators
      (Sample.minters [Sample.addrA; Sample.addrB; Sample.addrC]) = Ok out.
Proof.
  assert (@asOwners Ref.collaborators
            (Sample.minters [Sample.addrB; Sample.addrA; Sample.addrC])
            {| vmargs.Minters := [Sample.addrB; Sample.addrA; Sample.addrC] |})
    as H1 by (eexists; split; vm_compute; reflexivity).
  assert (@asOwners Ref.collaborators
            (Sample.minters [Sample.addrA; Sample.addrB; Sample.addrC])
            {| vmargs.Minters := [Sample.addrA; Sample.addrB; Sample.addrC] |})
    as H2 by (eexists; split; vm_compute; reflexivity).
  assert (Permutation [Sample.addrB; Sample.addrA; Sample.addrC]
            [Sample.addrA; Sample.addrB; Sample.addrC]) as Hp
    by apply perm_swap.
  split; [exact H1|]. split; [exact H2|]. split; [exact Hp|].
  destruct (@variableCapOutput Ref.collaborators
              (Sample.minters [Sample.addrB; Sample.addrA; Sample.addrC]))
    as [out|e] eqn:E; [|vm_compute in E; discriminate].
  exists out. split; [reflexivity|].
  exact (@minters_order_is_irrelevant Ref.collaborators _ _ _ _ out
           H1 H2 Hp E).
Defined.

(** ** The reply on the last steps, and the owners of an output *)

Section LastSteps.

Context {C : Collaborators}.

(** X13: on an error return the reply differs from what it was only
    when the text encoding is what failed: the genesis was assembled and
    marshalled, the reply's bytes are the string that the failing
    encoder handed back, its encoding field is untouched and the error
    is the encoding message. *)
Theorem reply_changes_only_on_encode_failure (args : vmargs.BuildGenesisArgs)
  (reply reply' : vmargs.BuildGenesisReply) (e : error) :
  BuildGenesis args reply = (reply', Some e) ->
  reply' = reply \/
  exists g b text inner,
    assembleGenesis args = Ok g /\
    manager_Marshal codecVersion g = Ok b /\
    formatting_Encode (vmargs.Encoding args) b = (text, Some inner) /\
    e = Fmt "couldn't encode genesis as string: %s" inner /\
    reply' = {| vmargs.Bytes := text;
                vmargs.ReplyEncoding := vmargs.ReplyEncoding reply |}.
Proof.
  unfold BuildGenesis.
  destruct (wrappers.Errored _).
  - intros H; inversion H; auto.
  - destruct (assembleGenesis args) as [g|] eqn:Eg;
      [|intros H; inversion H; auto].
    destruct (manager_Marshal codecVersion g) as [b|] eqn:Eb;
      [|intros H; inversion H; auto].
    destruct (formatting_Encode _ b) as [text [inner|]] eqn:Ee;
      intros H; inversion H; subst.
    right. exists g, b, text, inner. auto.
Qed.

(** X14: every output of the genesis has threshold 1, and every one of
    its owner addresses is the 20 bytes that the address text of a
    record decodes to. *)
Theorem owners_have_threshold_1_and_20_byte_addresses
  (args : vmargs.BuildGenesisArgs) (g : internalavm.Genesis)
  (asset : internalavm.GenesisAsset) (st : internalavm.InitialState)
  (out : internalavm.Output) :
  SortReorders C ->
  assembleGenesis args = Ok g ->
  In asset (internalavm.Txs g) ->
  In st (internalavm.assetStates asset) ->
  In out (internalavm.Outs st) ->
  secp256k1fx.Threshold (internalavm.owners out) = 1 /\
  Forall (fun addr => length addr = 20%nat /\
                      exists address, resolves address addr)
    (secp256k1fx.Addrs (internalavm.owners out)).
Proof.
  intros Hsort Hg Ha Hst Hout.
  destruct (assembleGenesis_In_result _ _ _ Hg Ha) as (a & def & Hin & Hb).
  destruct (buildAsset_states _ _ _ _ Hsort Hb)
    as [[_ E]|(outs & Hall & E)]; rewrite E in Hst; simpl in Hst;
    [contradiction|].
  destruct Hst as [<-|[]]. simpl in Hout.
  apply (Permutation_in out (sort_by_Permutation _ outs)) in Hout.
  destruct (allOutputs_provenance _ _ _ Hall Hout)
    as (assetType & records & state & _ & _ & [[_ Ht]|[_ Hm]]).
  - destruct Ht as (h & addr & _ & Hr & ->). simpl.
    split; [reflexivity|]. constructor; [|constructor].
    split; [now destruct Hr as (hrp & _ & Hl) | eauto].
  - destruct Hm as (o & addrs & sorted & _ & Hr & Hp & _ & ->). simpl.
    split; [reflexivity|].
    assert (Forall (fun addr => length addr = 20%nat /\
                                exists address, resolves address addr) addrs)
      as Hall20.
    { clear - Hr. induction Hr as [|address addr l l' Hx _ IH];
        constructor; [|exact IH].
      split; [now destruct Hx as (hrp & _ & Hl) | eauto]. }
    now rewrite Hp.
Qed.

End LastSteps.

Lemma reply_changes_only_on_encode_failure_witness :
  @BuildGenesis Ref.collaborators Sample.longRequest Sample.reply0 =
  ({| vmargs.Bytes := ""; vmargs.ReplyEncoding := formatting.CB58 |},
   Some (Fmt "couldn't encode genesis as string: %s"
           (New "byte slice too long"))) /\
  ({| vmargs.Bytes := ""; vmargs.ReplyEncoding := formatting.CB58 |}
   = Sample.reply0 \/
   exists g b text inner,
     @assembleGenesis Ref.collaborators Sample.longRequest = Ok g /\
     @manager_Marshal Ref.collaborators codecVersion g = Ok b /\
     @formatting_Encode Ref.collaborators
       (vmargs.Encoding Sample.longRequest) b = (text, Some inner) /\
     Fmt "couldn't encode genesis as string: %s" (New "byte slice too long")
     = Fmt "couldn't encode genesis as string: %s" inner /\
     {| vmargs.Bytes := ""; vmargs.ReplyEncoding := formatting.CB58 |}
     = {| vmargs.Bytes := text;
          vmargs.ReplyEncoding := vmargs.ReplyEncoding Sample.reply0 |}).
Proof.
  assert (@BuildGenesis Ref.collaborators Sample.longRequest Sample.reply0 =
          ({| vmargs.Bytes := ""; vmargs.ReplyEncoding := formatting.CB58 |},
           Some (Fmt "couldn't encode genesis as string: %s"
                   (New "byte slice too long")))) as H
    by (vm_compute; reflexivity).
  split; [exact H|].
  exact (@reply_changes_only_on_encode_failure Ref.collaborators
           Sample.longRequest Sample.reply0 _ _ H).
Defined.

Lemma owners_have_threshold_1_and_20_byte_addresses_witness :
  SortReorders Ref.collaborators /\
  exists g asset st out,
    @assembleGenesis Ref.collaborators More.betaOnly = Ok g /\
    In asset (internalavm.Txs g) /\
    In st (internalavm.assetStates asset) /\
    In out (internalavm.Outs st) /\
    secp256k1fx.Threshold (internalavm.owners out) = 1 /\
    Forall (fun addr => length addr = 20%nat /\
                        exists address,
                          @resolves Ref.collaborators address addr)
      (secp256k1fx.Addrs (internalavm.owners out)).
Proof.
  split; [exact Ref_SortReorders|].
  do 4 eexists.
  split; [lazy; reflexivity|].
  split; [left; reflexivity|].
  split; [left; reflexivity|].
  split; [left; reflexivity|].
  eapply (@owners_have_threshold_1_and_20_byte_addresses Ref.collaborators
            More.betaOnly _ _ _ _ Ref_SortReorders).
  - lazy; reflexivity.
  - left; reflexivity.
  - left; reflexivity.
  - left; reflexivity.
Defined.
